(** * claudevoice: the notification hook [notify.py]

    A shallow embedding of the message resolver, the transcript summarizer,
    the configuration loader and the entry point of [notify.py], and the
    properties of them that the specification states.

    Python values are embedded as follows.
    - A [str] is the list of its Unicode code points ([N]).
    - An [int] is a [Z]; [//] on a positive divisor is [Z.div] (both floor).
    - A value decoded by [json.loads] is a [json] tree; a [dict] is the
      list of its items, looked up by key.
    - A raised exception is the [Raise] case of [result]; an [except]
      clause matches by the subclass relation [issubclass].
    - What the program reads from outside (standard input, the files, the
      collaborators' outcomes) is a field of the [world] it runs in, and
      what it does to the outside is the list of its [action]s. *)

From Stdlib Require Import List ZArith NArith Lia Bool String Ascii SpecFloat.
Import ListNotations.

Open Scope Z_scope.

(** ** Python strings *)

Module Py.

Definition char := N.
Definition str := list char.

(** A string literal of the source. *)
Definition lit (s : string) : str := map N_of_ascii (list_ascii_of_string s).

(** [len(s)] *)
Definition len (s : str) : Z := Z.of_nat (List.length s).

(** [s[:n]]: a negative [n] counts from the end, and the bound is clamped. *)
Definition slice_to (s : str) (n : Z) : str :=
  if n <? 0 then firstn (Z.to_nat (len s + n)) s else firstn (Z.to_nat n) s.

(** [s.startswith(p)] *)
Fixpoint startswith (p s : str) : bool :=
  match p, s with
  | [], _ => true
  | _ :: _, [] => false
  | c :: p', d :: s' => (c =? d)%N && startswith p' s'
  end.

(** [s.find(sub)], as [i + s.find(sub)] on a suffix [s] that starts at [i]:
    the lowest index at which [sub] occurs, or -1. *)
Fixpoint find_from (i : Z) (s sub : str) : Z :=
  if startswith sub s then i
  else match s with
       | [] => -1
       | _ :: s' => find_from (i + 1) s' sub
       end.

Definition find (s sub : str) : Z := find_from 0 s sub.

(** [s.rfind(sub)]: the highest index at which [sub] occurs, or -1. *)
Fixpoint rfind_from (i : Z) (s sub : str) : Z :=
  match s with
  | [] => if startswith sub [] then i else -1
  | _ :: s' =>
      let r := rfind_from (i + 1) s' sub in
      if 0 <=? r then r else if startswith sub s then i else -1
  end.

Definition rfind (s sub : str) : Z := rfind_from 0 s sub.

(** [c.isspace()]: the code points CPython's [_PyUnicode_IsWhitespace]
    accepts; [strip], [lstrip] and [rstrip] without argument remove these. *)
Definition isspace (c : char) : bool :=
  ((9 <=? c) && (c <=? 13) || (28 <=? c) && (c <=? 32)
   || (c =? 133) || (c =? 160) || (c =? 5760)
   || (8192 <=? c) && (c <=? 8202)
   || (c =? 8232) || (c =? 8233) || (c =? 8239) || (c =? 8287)
   || (c =? 12288))%N.

Fixpoint lstrip (s : str) : str :=
  match s with
  | [] => []
  | c :: s' => if isspace c then lstrip s' else s
  end.

Definition rstrip (s : str) : str := rev (lstrip (rev s)).

Definition strip (s : str) : str := rstrip (lstrip s).

(** [s.replace(old, new)] for a non-empty [old]: scan from the left; at an
    occurrence of [old] emit [new] and skip the occurrence ([skip] counts
    the characters of it still to pass), elsewhere copy the character. *)
Fixpoint replace_scan (old new s : str) (skip : nat) : str :=
  match s with
  | [] => []
  | c :: s' =>
      match skip with
      | S k => replace_scan old new s' k
      | O =>
          if startswith old s
          then new ++ replace_scan old new s' (List.length old - 1)%nat
          else c :: replace_scan old new s' 0
      end
  end.

(** [s.replace(old, new)]; an empty [old] matches before every character
    and at the end. *)
Definition replace (s old new : str) : str :=
  match old with
  | [] => new ++ flat_map (fun c => c :: new) s
  | _ :: _ => replace_scan old new s 0
  end.

(** The line boundaries of [str.splitlines]. *)
Definition islinebreak (c : char) : bool :=
  ((10 <=? c) && (c <=? 13) || (28 <=? c) && (c <=? 30)
   || (c =? 133) || (c =? 8232) || (c =? 8233))%N.

(** [s.splitlines()], with the line being read kept reversed in [cur];
    a carriage return followed by a line feed is one boundary. *)
Fixpoint splitlines_from (cur s : str) : list str :=
  match s with
  | [] => match cur with [] => [] | _ :: _ => [rev cur] end
  | c :: s' =>
      if islinebreak c then
        rev cur ::
        match s' with
        | d :: s'' => if ((c =? 13) && (d =? 10))%N
                      then splitlines_from [] s''
                      else splitlines_from [] s'
        | [] => splitlines_from [] s'
        end
      else splitlines_from (c :: cur) s'
  end.

Definition splitlines (s : str) : list str := splitlines_from [] s.

(** [sep.join(parts)] *)
Fixpoint join (sep : str) (parts : list str) : str :=
  match parts with
  | [] => []
  | [p] => p
  | p :: rest => p ++ sep ++ join sep rest
  end.

(** [a == b] on two strings. *)
Definition eqb (a b : str) : bool :=
  if list_eq_dec N.eq_dec a b then true else false.

(** The sentence terminator. *)
Definition period : char := 46%N.

(** [p] is a prefix of [s]. *)
Definition prefix_of (p s : str) : Prop := exists t, s = p ++ t.

(** [sub in s] *)
Definition occurs (sub s : str) : Prop := exists a b, s = a ++ sub ++ b.

(** [sub in s], decided. *)
Fixpoint occursb (sub s : str) : bool :=
  startswith sub s
  || match s with
     | [] => false
     | _ :: s' => occursb sub s'
     end.

End Py.

#[warnings="-notation-for-abbreviation"]
Notation str := Py.str (only parsing).
Notation "'py' s" := (Py.lit s%string) (at level 9, s at level 0, only parsing).

(** ** Message resolution: length capping *)

Definition MAX_MESSAGE_LENGTH : Z := 200.

(** [_truncate(text, max_len)] *)
Definition _truncate (text : str) (max_len : Z) : str :=
  if Py.len text <=? max_len then text
  else
    let cut := Py.slice_to text max_len in
    let last_period := Py.rfind cut (py ".") in
    if last_period >? max_len / 2
    then Py.slice_to cut (last_period + 1)
    else Py.rstrip cut ++ py ".".

(** ** Decoded JSON values *)

(** What [json.loads] returns: [None], a [bool], an [int], a [float], a
    [str], a [list] or a [dict]. A [dict] is the list of its items, one for
    each key; [lookup] reads the first item of a key. *)
#[warnings="-register-all"]
Inductive json : Type :=
| JNull
| JBool (b : bool)
| JInt (n : Z)
| JFloat (x : spec_float)
| JStr (s : str)
| JArr (elems : list json)
| JObj (items : list (str * json)).

Fixpoint lookup (k : str) (items : list (str * json)) : option json :=
  match items with
  | [] => None
  | (k', v) :: rest => if Py.eqb k k' then Some v else lookup k rest
  end.

(** [bool(v)]: the truth value an [if] tests. *)
Definition truthy (v : json) : bool :=
  match v with
  | JNull => false
  | JBool b => b
  | JInt n => negb (n =? 0)
  | JFloat (S754_zero _) => false
  | JFloat _ => true
  | JStr s => match s with [] => false | _ :: _ => true end
  | JArr l => match l with [] => false | _ :: _ => true end
  | JObj l => match l with [] => false | _ :: _ => true end
  end.

(** [v == s] for a string literal [s]. *)
Definition eq_str (v : json) (s : str) : bool :=
  match v with
  | JStr t => Py.eqb t s
  | _ => false
  end.

(** ** Exceptions *)

(** The exception classes that occur. [BaseException] is the root;
    [KeyboardInterrupt], [SystemExit] and [CancelledError] derive from it
    and not from [Exception], so [except Exception] lets them pass.
    [OtherError] stands for any further direct subclass of [Exception] a
    collaborator raises. *)
Inductive exc_class : Type :=
| BaseException
| KeyboardInterrupt | SystemExit | CancelledError
| Exception
| OSError | FileNotFoundError | PermissionError
| ValueError | JSONDecodeError | UnicodeDecodeError
| LookupError | KeyError
| AttributeError | TypeError
| RuntimeError | RecursionError
| ImportError | ModuleNotFoundError
| OtherError.

Definition exc_eqb (c d : exc_class) : bool :=
  match c, d with
  | BaseException, BaseException | KeyboardInterrupt, KeyboardInterrupt
  | SystemExit, SystemExit | CancelledError, CancelledError
  | Exception, Exception | OSError, OSError
  | FileNotFoundError, FileNotFoundError | PermissionError, PermissionError
  | ValueError, ValueError | JSONDecodeError, JSONDecodeError
  | UnicodeDecodeError, UnicodeDecodeError
  | LookupError, LookupError | KeyError, KeyError
  | AttributeError, AttributeError | TypeError, TypeError
  | RuntimeError, RuntimeError | RecursionError, RecursionError
  | ImportError, ImportError | ModuleNotFoundError, ModuleNotFoundError
  | OtherError, OtherError => true
  | _, _ => false
  end.

(** The class and its base classes, most derived first. *)
Definition mro (c : exc_class) : list exc_class :=
  match c with
  | BaseException => [BaseException]
  | KeyboardInterrupt => [KeyboardInterrupt; BaseException]
  | SystemExit => [SystemExit; BaseException]
  | CancelledError => [CancelledError; BaseException]
  | Exception => [Exception; BaseException]
  | OSError => [OSError; Exception; BaseException]
  | FileNotFoundError => [FileNotFoundError; OSError; Exception; BaseException]
  | PermissionError => [PermissionError; OSError; Exception; BaseException]
  | ValueError => [ValueError; Exception; BaseException]
  | JSONDecodeError => [JSONDecodeError; ValueError; Exception; BaseException]
  | UnicodeDecodeError =>
      [UnicodeDecodeError; ValueError; Exception; BaseException]
  | LookupError => [LookupError; Exception; BaseException]
  | KeyError => [KeyError; LookupError; Exception; BaseException]
  | AttributeError => [AttributeError; Exception; BaseException]
  | TypeError => [TypeError; Exception; BaseException]
  | RuntimeError => [RuntimeError; Exception; BaseException]
  | RecursionError => [RecursionError; RuntimeError; Exception; BaseException]
  | ImportError => [ImportError; Exception; BaseException]
  | ModuleNotFoundError =>
      [ModuleNotFoundError; ImportError; Exception; BaseException]
  | OtherError => [OtherError; Exception; BaseException]
  end.

Definition issubclass (c d : exc_class) : bool := existsb (exc_eqb d) (mro c).

(** [except (c1, c2, ...)] matches an exception of class [e]. *)
Definition caught (classes : list exc_class) (e : exc_class) : bool :=
  existsb (issubclass e) classes.

(** The outcome of an expression: a value, or a raised exception. *)
Inductive result (A : Type) : Type :=
| Ok (a : A)
| Raise (e : exc_class).

Arguments Ok {A} a.
Arguments Raise {A} e.

Definition bind {A B : Type} (r : result A) (k : A -> result B) : result B :=
  match r with
  | Ok a => k a
  | Raise e => Raise e
  end.

Notation "x <- r ;; k" := (bind r (fun x => k))
  (at level 61, r at next level, right associativity).

(** [try: r  except classes: handler] *)
Definition try_except {A : Type} (r : result A) (classes : list exc_class)
    (handler : result A) : result A :=
  match r with
  | Ok a => Ok a
  | Raise e => if caught classes e then handler else Raise e
  end.

(** ** Operations on decoded values *)

(** [d.get(k, default)]: only a [dict] has the method. *)
Definition get (d : json) (k : str) (default : json) : result json :=
  match d with
  | JObj items =>
      Ok (match lookup k items with Some v => v | None => default end)
  | _ => Raise AttributeError
  end.

(** [d[k]] for a string key [k]. *)
Definition subscript (d : json) (k : str) : result json :=
  match d with
  | JObj items =>
      match lookup k items with Some v => Ok v | None => Raise KeyError end
  | _ => Raise TypeError
  end.

(** [for x in v]: the elements of a [list], the keys of a [dict], the
    characters of a [str]; nothing else is iterable. *)
Definition iterate (v : json) : result (list json) :=
  match v with
  | JArr l => Ok l
  | JObj items => Ok (map (fun kv => JStr (fst kv)) items)
  | JStr s => Ok (map (fun c => JStr [c]) s)
  | _ => Raise TypeError
  end.

(** [t.replace(old, new)] for a literal [old]: only a [str] has the method,
    and it takes a [str]. *)
Definition replace (t : json) (old : str) (new : json) : result str :=
  match t with
  | JStr template =>
      match new with
      | JStr value => Ok (Py.replace template old value)
      | _ => Raise TypeError
      end
  | _ => Raise AttributeError
  end.

(** [s.strip()]: only a [str] has the method. *)
Definition strip (v : json) : result str :=
  match v with
  | JStr s => Ok (Py.strip s)
  | _ => Raise AttributeError
  end.

(** A loop body run over a list, left to right, until it raises. *)
Fixpoint for_each {A St : Type} (body : St -> A -> result St) (s : St)
    (xs : list A) : result St :=
  match xs with
  | [] => Ok s
  | x :: rest => s' <- body s x ;; for_each body s' rest
  end.

(** ** Config *)

Definition DEFAULT_MESSAGES : json :=
  JObj [ (py "prompt_submit", JStr (py "On it."));
         (py "stop", JStr (py "Done. {summary}"));
         (py "notification_permission_prompt",
            JStr (py "Need your permission. {message}"));
         (py "notification_idle_prompt", JStr (py "Waiting for your input."));
         (py "notification_default", JStr (py "{message}")) ].

Definition DEFAULT_CONFIG : json :=
  JObj [ (py "enabled", JBool true);
         (py "voice", JStr (py "en-US-GuyNeural"));
         (py "rate", JStr (py "+0%"));
         (py "volume", JStr (py "+0%"));
         (py "pitch", JStr (py "+0Hz"));
         (py "messages", DEFAULT_MESSAGES) ].

(** ** The world outside the program *)

(** What reading and decoding one piece of text comes to: it is blank
    (empty once stripped, so never parsed), or [json.loads] raises on it
    ([JSONDecodeError] for text that is not JSON, [ValueError] for an
    integer of too many digits, [RecursionError] for nesting too deep), or
    it decodes to a value. *)
Inductive text : Type :=
| Blank
| Raises (e : exc_class)
| Decodes (v : json).

(** Text that is not JSON. *)
Definition Malformed : text := Raises JSONDecodeError.

(** One run's surroundings: what each read and each collaborator answers. *)
Record world : Type := {
  (** [sys.stdin.read()] *)
  stdin : text;
  (** [open(config_path)] followed by [json.load]: the document, or what
      was raised ([FileNotFoundError] for an absent file, another [OSError]
      for an unreadable one, [JSONDecodeError] for a malformed one). *)
  config_file : result json;
  (** [open(transcript_path)] and the lines read from it, in file order:
      what was raised by opening or reading ([OSError] for a file that is
      absent or unreadable), or the lines. *)
  transcript : json -> result (list text);
  (** [str(v)] for a decoded value [v] that is not a [str]. *)
  str_of : json -> str;
  (** Appending to [debug.log]. *)
  debug_log : result unit;
  (** The first statements of [_generate_and_play], [import edge_tts] and
      the creation of the temporary file with [NamedTemporaryFile] and
      [close]: the name of the file created, or what the import or the
      creation raised. *)
  tmp_file : result str;
  (** [edge_tts.Communicate(text, voice, rate, volume, pitch).save(path)] *)
  synthesize : json -> json -> json -> json -> json -> str -> result unit;
  (** The error code [mciSendStringW] returns for a command. *)
  mciSendString : str -> Z;
  (** [os.unlink(tmp_path)] *)
  unlink : str -> result unit;
  (** [print(f"{prefix}{e}", file=sys.stderr)] *)
  stderr_write : str -> exc_class -> result unit
}.

(** What a run does that can be observed from outside: a line printed to
    standard error ([prefix] followed by [str(e)]) and an event appended
    to the debug log, each listed once it is written; the entry into
    [_generate_and_play], which starts on its temporary file; and the
    calls of the synthesizer, of [mciSendStringW] and of [os.unlink],
    each listed as it is made. *)
Inductive action : Type :=
| Stderr (prefix : str) (e : exc_class)
| DebugWrite (event : json)
| CreateTemp
| Synthesize (message voice rate volume pitch : json) (path : str)
| Mci (command : str)
| Unlink (path : str).

(** A statement that acts on the world: its actions, then its outcome. *)
Definition io (A : Type) : Type := (list action * result A)%type.

Definition io_ret {A : Type} (a : A) : io A := ([], Ok a).

Definition io_raise {A : Type} (e : exc_class) : io A := ([], Raise e).

Definition io_lift {A : Type} (r : result A) : io A := ([], r).

Definition io_act (a : action) : io unit := ([a], Ok tt).

Definition io_bind {A B : Type} (m : io A) (k : A -> io B) : io B :=
  match m with
  | (tr, Ok a) => let (tr', r) := k a in (tr ++ tr', r)
  | (tr, Raise e) => (tr, Raise e)
  end.

Notation "x <~ m ;; k" := (io_bind m (fun x => k))
  (at level 61, m at next level, right associativity).

(** [try: m  except classes as e: handler e] *)
Definition io_try_except {A : Type} (m : io A) (classes : list exc_class)
    (handler : exc_class -> io A) : io A :=
  match m with
  | (tr, Raise e) =>
      if caught classes e
      then let (tr', r) := handler e in (tr ++ tr', r)
      else (tr, Raise e)
  | (tr, Ok a) => (tr, Ok a)
  end.

(** [try: m  finally: cleanup]: [cleanup] runs on either outcome of [m],
    and an exception of its own replaces that outcome. *)
Definition io_try_finally {A : Type} (m : io A) (cleanup : io unit) : io A :=
  let (tr, r) := m in
  match cleanup with
  | (tr', Ok _) => (tr ++ tr', r)
  | (tr', Raise e) => (tr ++ tr', Raise e)
  end.

(** How the process ends: with an exit code, or on an exception that
    nothing caught (a traceback and an exit status that is not 0, or for a
    [SystemExit] the status it carries). *)
Inductive ending : Type :=
| Exit (code : Z)
| Dies (e : exc_class).

(** The double quote character. *)
Definition quote : str := [34%N].

Section Runtime.

Variable w : world.

(** ** MCI audio playback *)

(** [_mci(command)]; the text MCI answers is not used by any caller. *)
Definition _mci (command : str) : io unit :=
  _ <~ io_act (Mci command) ;;
  if mciSendString w command =? 0 then io_ret tt else io_raise RuntimeError.

(** [play_mp3(path)] *)
Definition play_mp3 (path : str) : io unit :=
  _ <~ _mci (py "Close All") ;;
  _ <~ _mci (py "Open " ++ quote ++ path ++ quote
             ++ py " Type MPEGVideo Alias voice_notif") ;;
  _ <~ _mci (py "Play voice_notif Wait") ;;
  _mci (py "Close voice_notif").

(** ** Config *)

(** [print(f"{prefix}{e}", file=sys.stderr)] *)
Definition print_stderr (prefix : str) (e : exc_class) : io unit :=
  _ <~ io_lift (stderr_write w prefix e) ;;
  io_act (Stderr prefix e).

(** [load_config()] *)
Definition load_config : io json :=
  io_try_except (io_lift (config_file w))
    [FileNotFoundError; JSONDecodeError]
    (fun e =>
       _ <~ print_stderr (py "Config error, using defaults: ") e ;;
       io_ret DEFAULT_CONFIG).

(** ** Message resolution: the transcript summary *)

(** The body of [for block in message.get(content, [])]. *)
Definition scan_block (last_text block : json) : result json :=
  ty <- get block (py "type") JNull ;;
  if eq_str ty (py "text") then subscript block (py "text") else Ok last_text.

(** The body of [for line in f], on the line once stripped. *)
Definition scan_line (last_text : json) (line : text) : result json :=
  match line with
  | Blank => Ok last_text
  | Raises e => Raise e
  | Decodes entry =>
      ty <- get entry (py "type") JNull ;;
      if eq_str ty (py "assistant") then
        message <- get entry (py "message") (JObj []) ;;
        content <- get message (py "content") (JArr []) ;;
        blocks <- iterate content ;;
        for_each scan_block last_text blocks
      else Ok last_text
  end.

(** [_extract_summary] from [if not last_text] to [return snippet[:150]]. *)
Definition last_line_snippet (last_text : json) : result str :=
  if negb (truthy last_text) then Ok []
  else
    stripped <- strip last_text ;;
    let lines := map Py.strip
                   (filter (fun l => truthy (JStr (Py.strip l)))
                      (Py.splitlines stripped)) in
    let snippet := match lines with
                   | [] => stripped
                   | _ :: _ => last lines []
                   end in
    let period := Py.find snippet (py ".") in
    if (0 <? period) && (period <? 150)
    then Ok (Py.slice_to snippet (period + 1))
    else Ok (Py.slice_to snippet 150).

(** [_extract_summary(transcript_path)] *)
Definition _extract_summary (transcript_path : json) : result str :=
  try_except
    (lines <- transcript w transcript_path ;;
     last_text <- for_each scan_line (JStr []) lines ;;
     last_line_snippet last_text)
    [OSError; JSONDecodeError; KeyError]
    (Ok []).

(** ** Message resolution *)

(** [f"notification_{notif_type}"] *)
Definition notification_key (notif_type : json) : str :=
  py "notification_" ++
  match notif_type with
  | JStr s => s
  | v => str_of w v
  end.

(** [resolve_message(event, config)]; [None] is [JNull]. *)
Definition resolve_message (event config : json) : result json :=
  hook_event <- get event (py "hook_event_name") (JStr []) ;;
  messages <- get config (py "messages") DEFAULT_MESSAGES ;;
  if eq_str hook_event (py "UserPromptSubmit") then
    get messages (py "prompt_submit") (JStr (py "On it."))
  else if eq_str hook_event (py "Stop") then
    active <- get event (py "stop_hook_active") (JBool false) ;;
    if truthy active then Ok JNull
    else
      template <- get messages (py "stop") (JStr (py "Done. {summary}")) ;;
      summary <- get event (py "transcript_summary") (JStr []) ;;
      summary <- (if negb (truthy summary) then
                    transcript_path <- get event (py "transcript_path") (JStr []) ;;
                    if truthy transcript_path
                    then s <- _extract_summary transcript_path ;; Ok (JStr s)
                    else Ok summary
                  else Ok summary) ;;
      text <- (if negb (truthy summary)
               then t <- replace template (py "{summary}") (JStr []) ;;
                    Ok (Py.strip t)
               else replace template (py "{summary}") summary) ;;
      Ok (JStr (_truncate text MAX_MESSAGE_LENGTH))
  else if eq_str hook_event (py "Notification") then
    notif_type <- get event (py "notification_type") (JStr []) ;;
    let key := notification_key notif_type in
    fallback <- get messages (py "notification_default") (JStr (py "{message}")) ;;
    template <- get messages key fallback ;;
    raw_message <- get event (py "message") (JStr (py "Notification")) ;;
    text <- replace template (py "{message}") raw_message ;;
    Ok (JStr (_truncate text MAX_MESSAGE_LENGTH))
  else Ok JNull.

(** ** TTS *)

(** [_generate_and_play(text, config)]. Its first statements, the import
    of edge_tts and the creation of the temporary file, answer together
    as [tmp_file]: what either raises is raised before anything else is
    done. *)
Definition _generate_and_play (message config : json) : io unit :=
  _ <~ io_act CreateTemp ;;
  tmp_path <~ io_lift (tmp_file w) ;;
  io_try_finally
    (voice <~ io_lift (get config (py "voice") (JStr (py "en-US-GuyNeural"))) ;;
     rate <~ io_lift (get config (py "rate") (JStr (py "+0%"))) ;;
     volume <~ io_lift (get config (py "volume") (JStr (py "+0%"))) ;;
     pitch <~ io_lift (get config (py "pitch") (JStr (py "+0Hz"))) ;;
     _ <~ io_act (Synthesize message voice rate volume pitch tmp_path) ;;
     _ <~ io_lift (synthesize w message voice rate volume pitch tmp_path) ;;
     play_mp3 tmp_path)
    (io_try_except
       (_ <~ io_act (Unlink tmp_path) ;; io_lift (unlink w tmp_path))
       [OSError]
       (fun _ => io_ret tt)).

(** [speak(text, config)] *)
Definition speak (message config : json) : io unit :=
  _generate_and_play message config.

(** ** Entry point *)

(** [_debug_log(event)] *)
Definition _debug_log (event : json) : io unit :=
  io_try_except
    (_ <~ io_lift (debug_log w) ;; io_act (DebugWrite event))
    [OSError]
    (fun _ => io_ret tt).

(** [main()] *)
Definition main : io unit :=
  event <~ io_lift (match stdin w with
                    | Blank => Ok (JObj [])
                    | Raises e => Raise e
                    | Decodes v => Ok v
                    end) ;;
  config <~ load_config ;;
  debug <~ io_lift (get config (py "debug") (JBool false)) ;;
  _ <~ (if truthy debug then _debug_log event else io_ret tt) ;;
  enabled <~ io_lift (get config (py "enabled") (JBool true)) ;;
  if negb (truthy enabled) then io_ret tt
  else
    message <~ io_lift (resolve_message event config) ;;
    if truthy message then speak message config else io_ret tt.

(** The [if __name__ == "__main__"] block: the actions of the run and
    how the process ends. [sys.exit(0)] ends it with the exit code 0, as
    does the end of the module; an exception that nothing catches, the
    handler's own included, ends it on that exception. *)
Definition entry_point : list action * ending :=
  match main with
  | (tr, Ok _) => (tr, Exit 0)
  | (tr, Raise e) =>
      if issubclass e Exception
      then match print_stderr (py "claudevoice error: ") e with
           | (tr', Ok _) => (tr ++ tr', Exit 0)
           | (tr', Raise e') => (tr ++ tr', Dies e')
           end
      else (tr, Dies e)
  end.

End Runtime.

(** ** Vocabulary of the statements *)

(** The placeholder of a name: the name between braces. *)
Definition placeholder (name : str) : str := py "{" ++ name ++ py "}".

(** A placeholder name: it holds no brace. *)
Definition brace_free (name : str) : Prop :=
  ~ In 123%N name /\ ~ In 125%N name.

(** The template of segments [segs] with the text [sep] between each two:
    [sep.join(segs)]. *)
Definition segments_of (template sep : str) (segs : list str) : Prop :=
  template = Py.join sep segs /\ Forall (fun s => ~ Py.occurs sep s) segs.

(** Rendering with the recognized placeholder [ph], as the specification
    asks it of every template and every value: the template is segments
    joined by [ph]; rendering joins the same segments by the value, so each
    occurrence of [ph] is replaced once and the value is not read again;
    and a placeholder of another name stays where it is, as it is. *)
Definition renders_once (ph : str) : Prop :=
  forall template value : str,
    (exists segs, segments_of template ph segs) /\
    (forall segs, segments_of template ph segs ->
       replace (JStr template) ph (JStr value) = Ok (Py.join value segs)) /\
    (forall a name b,
       brace_free name -> placeholder name <> ph ->
       template = a ++ placeholder name ++ b ->
       Py.replace template ph value
       = Py.replace a ph value ++ placeholder name ++ Py.replace b ph value).

(** [main()] as far as the test of the enabled flag: the event and the
    configuration it goes on with, or nothing when the flag is off. *)
Definition prelude (w : world) : io (option (json * json)) :=
  event <~ io_lift (match stdin w with
                    | Blank => Ok (JObj [])
                    | Raises e => Raise e
                    | Decodes v => Ok v
                    end) ;;
  config <~ load_config w ;;
  debug <~ io_lift (get config (py "debug") (JBool false)) ;;
  _ <~ (if truthy debug then _debug_log w event else io_ret tt) ;;
  enabled <~ io_lift (get config (py "enabled") (JBool true)) ;;
  if negb (truthy enabled) then io_ret None else io_ret (Some (event, config)).

(** The run called [speak]: it entered [_generate_and_play]. *)
Definition speaks (tr : list action) : Prop := In CreateTemp tr.

(** The key [k] is absent from the items, or bound to a string. *)
Definition str_or_absent (k : str) (items : list (str * json)) : bool :=
  match lookup k items with
  | None | Some (JStr _) => true
  | Some _ => false
  end.




(** A content block of the documented shape: an object whose [text], if
    it is a [text] block and has one, is a string. *)
Definition block_shaped (block : json) : bool :=
  match block with
  | JObj items =>
      match lookup (py "type") items with
      | Some ty => if eq_str ty (py "text")
                   then str_or_absent (py "text") items else true
      | None => true
      end
  | _ => false
  end.

(** A transcript line of the documented shape: blank, or not JSON
    ([json.loads] raises [JSONDecodeError] on it, and nothing else), or
    an object; an assistant record's [message], when present, is an
    object whose [content], when present, is a list of blocks. *)
Definition line_shaped (line : text) : bool :=
  match line with
  | Blank => true
  | Raises e => issubclass e JSONDecodeError
  | Decodes (JObj entry) =>
      match lookup (py "type") entry with
      | Some ty =>
          if eq_str ty (py "assistant") then
            match lookup (py "message") entry with
            | None => true
            | Some (JObj message) =>
                match lookup (py "content") message with
                | None => true
                | Some (JArr blocks) => forallb block_shaped blocks
                | Some _ => false
                end
            | Some _ => false
            end
          else true
      | None => true
      end
  | Decodes _ => false
  end.


(** The event kind [resolve_message] dispatches on, and whether it has a
    rule for it. *)
Definition event_kind (event : list (str * json)) : json :=
  match lookup (py "hook_event_name") event with
  | Some kind => kind
  | None => JStr []
  end.

Definition recognized (kind : json) : bool :=
  eq_str kind (py "UserPromptSubmit") || eq_str kind (py "Stop")
  || eq_str kind (py "Notification").

(** The three templates [resolve_message] names as defaults of its
    lookups. *)
Definition LOOKUP_DEFAULTS : list (str * json) :=
  [ (py "prompt_submit", JStr (py "On it."));
    (py "stop", JStr (py "Done. {summary}"));
    (py "notification_default", JStr (py "{message}")) ].

Definition DEFAULT_MESSAGE_ITEMS : list (str * json) :=
  match DEFAULT_MESSAGES with
  | JObj items => items
  | _ => []
  end.

(** A messages mapping laid over [defaults], key by key: a key the mapping
    binds keeps its template, any other key gets the default's. *)
Definition overlay (messages defaults : list (str * json)) : list (str * json) :=
  messages ++ defaults.

(** The configuration with its [messages] set to [messages]. *)
Definition with_messages (config messages : list (str * json)) : json :=
  JObj ((py "messages", JObj messages) :: config).

(** ** Worlds of the examples *)

(** A world with nothing on standard input, no configuration file and no
    transcript, and whose collaborators succeed. No example formats a value
    that is not a string, so [str_of] is left empty. *)
Definition quiet : world := {|
  stdin := Blank;
  config_file := Raise FileNotFoundError;
  transcript := fun _ => Raise FileNotFoundError;
  str_of := fun _ => [];
  debug_log := Ok tt;
  tmp_file := Ok (py "tmp.mp3");
  synthesize := fun _ _ _ _ _ _ => Ok tt;
  mciSendString := fun _ => 0;
  unlink := fun _ => Ok tt;
  stderr_write := fun _ _ => Ok tt
|}.

Definition with_stdin (w : world) (input : text) : world := {|
  stdin := input;
  config_file := config_file w;
  transcript := transcript w;
  str_of := str_of w;
  debug_log := debug_log w;
  tmp_file := tmp_file w;
  synthesize := synthesize w;
  mciSendString := mciSendString w;
  unlink := unlink w;
  stderr_write := stderr_write w
|}.

Definition with_config_file (w : world) (outcome : result json) : world := {|
  stdin := stdin w;
  config_file := outcome;
  transcript := transcript w;
  str_of := str_of w;
  debug_log := debug_log w;
  tmp_file := tmp_file w;
  synthesize := synthesize w;
  mciSendString := mciSendString w;
  unlink := unlink w;
  stderr_write := stderr_write w
|}.

(** The one transcript [t.jsonl] with the given lines. *)
Definition with_transcript (w : world) (lines : list text) : world := {|
  stdin := stdin w;
  config_file := config_file w;
  transcript := fun path => if eq_str path (py "t.jsonl")
                            then Ok lines else Raise FileNotFoundError;
  str_of := str_of w;
  debug_log := debug_log w;
  tmp_file := tmp_file w;
  synthesize := synthesize w;
  mciSendString := mciSendString w;
  unlink := unlink w;
  stderr_write := stderr_write w
|}.

Definition with_synthesis (w : world) (outcome : result unit) : world := {|
  stdin := stdin w;
  config_file := config_file w;
  transcript := transcript w;
  str_of := str_of w;
  debug_log := debug_log w;
  tmp_file := tmp_file w;
  synthesize := fun _ _ _ _ _ _ => outcome;
  mciSendString := mciSendString w;
  unlink := unlink w;
  stderr_write := stderr_write w
|}.

(** MCI refuses to play: every command but [Close All] returns [code]. *)
Definition with_playback_error (w : world) (code : Z) : world := {|
  stdin := stdin w;
  config_file := config_file w;
  transcript := transcript w;
  str_of := str_of w;
  debug_log := debug_log w;
  tmp_file := tmp_file w;
  synthesize := synthesize w;
  mciSendString := fun command => if Py.eqb command (py "Close All")
                                  then 0 else code;
  unlink := unlink w;
  stderr_write := stderr_write w
|}.

(** The import of edge_tts or the creation of the temporary file fails. *)
Definition with_tmp_error (w : world) (e : exc_class) : world := {|
  stdin := stdin w;
  config_file := config_file w;
  transcript := transcript w;
  str_of := str_of w;
  debug_log := debug_log w;
  tmp_file := Raise e;
  synthesize := synthesize w;
  mciSendString := mciSendString w;
  unlink := unlink w;
  stderr_write := stderr_write w
|}.

(** Standard error cannot be written. *)
Definition with_stderr_error (w : world) (e : exc_class) : world := {|
  stdin := stdin w;
  config_file := config_file w;
  transcript := transcript w;
  str_of := str_of w;
  debug_log := debug_log w;
  tmp_file := tmp_file w;
  synthesize := synthesize w;
  mciSendString := mciSendString w;
  unlink := unlink w;
  stderr_write := fun _ _ => Raise e
|}.

(** An assistant record of a transcript with one text block. *)
Definition assistant_says (said : str) : text :=
  Decodes (JObj [ (py "type", JStr (py "assistant"));
                  (py "message",
                   JObj [ (py "content",
                           JArr [ JObj [ (py "type", JStr (py "text"));
                                         (py "text", JStr said) ] ]) ]) ]).

(** Events of the examples. *)
Definition prompt_event : json :=
  JObj [ (py "hook_event_name", JStr (py "UserPromptSubmit")) ].

Definition stop_event (fields : list (str * json)) : json :=
  JObj ((py "hook_event_name", JStr (py "Stop")) :: fields).

Definition notification_event (fields : list (str * json)) : json :=
  JObj ((py "hook_event_name", JStr (py "Notification")) :: fields).

Definition idle_prompt_event (fields : list (str * json)) : json :=
  notification_event ((py "notification_type", JStr (py "idle_prompt")) :: fields).

(** A world whose one transcript ends on an assistant turn of two lines,
    and a Stop event that names it. *)
Definition two_line_world : world :=
  with_transcript quiet
    [assistant_says (py "Line one." ++ [10%N] ++ py "Line two?")].

Definition stop_with_transcript : list (str * json) :=
  [ (py "hook_event_name", JStr (py "Stop"));
    (py "transcript_path", JStr (py "t.jsonl")) ].

(** A configuration whose stop template is only the placeholder, and a
    world that gets a Stop event without summary under it. *)
Definition bare_stop_config : json :=
  JObj [(py "messages", JObj [(py "stop", JStr (py "{summary}"))])].

Definition bare_stop_world : world :=
  with_config_file (with_stdin quiet (Decodes (stop_event []))) (Ok bare_stop_config).

(** A world that gets a prompt event, with no configuration file. *)
Definition prompt_world : world := with_stdin quiet (Decodes prompt_event).

(** The scan of the lines of a transcript runs to its end: no line makes
    the loop body raise. *)
Definition scan_completes (lines : list text) : Prop :=
  exists last_text, for_each scan_line (JStr []) lines = Ok last_text.


(** What the resolver returns through the length cap. *)
Definition capped (r : json) : Prop :=
  r = JNull \/ exists s, r = JStr s /\ Py.len s <= 201.

(** The event's [stop_hook_active], as the resolver reads it. *)
Definition stop_hook_active (event : list (str * json)) : json :=
  match lookup (py "stop_hook_active") event with
  | Some flag => flag
  | None => JBool false
  end.

(** The four MCI commands of [play_mp3], in the order it sends them. *)
Definition play_commands (path : str) : list str :=
  [ py "Close All";
    py "Open " ++ quote ++ path ++ quote ++ py " Type MPEGVideo Alias voice_notif";
    py "Play voice_notif Wait";
    py "Close voice_notif" ].

(** The commands sent when each is sent only after the one before it
    returned the code 0. *)
Fixpoint sent_until_error (code : str -> Z) (commands : list str) : list str :=
  match commands with
  | [] => []
  | command :: rest =>
      command :: (if code command =? 0 then sent_until_error code rest else [])
  end.


Definition is_mci (a : action) : bool :=
  match a with Mci _ => true | _ => false end.

(** The world in which removing a file succeeds. *)
Definition with_unlink_ok (w : world) : world := {|
  stdin := stdin w;
  config_file := config_file w;
  transcript := transcript w;
  str_of := str_of w;
  debug_log := debug_log w;
  tmp_file := tmp_file w;
  synthesize := synthesize w;
  mciSendString := mciSendString w;
  unlink := fun _ => Ok tt;
  stderr_write := stderr_write w
|}.

(** The world in which removing a file fails with [e]. *)
Definition with_unlink_error (w : world) (e : exc_class) : world := {|
  stdin := stdin w;
  config_file := config_file w;
  transcript := transcript w;
  str_of := str_of w;
  debug_log := debug_log w;
  tmp_file := tmp_file w;
  synthesize := synthesize w;
  mciSendString := mciSendString w;
  unlink := fun _ => Raise e;
  stderr_write := stderr_write w
|}.

(** Removing a file succeeds or fails with an [OSError]. *)
Definition unlink_fails_softly (w : world) : Prop :=
  forall path,
    match unlink w path with
    | Ok _ => True
    | Raise e => issubclass e OSError = true
    end.

(** A world whose configuration turns the debug log on and speech off. *)
Definition debug_world : world :=
  with_config_file prompt_world
    (Ok (JObj [ (py "debug", JBool true); (py "enabled", JBool false) ])).

(** The text holds no line boundary. *)
Definition one_line (s : str) : Prop :=
  Forall (fun c => Py.islinebreak c = false) s.

(** The [try] block of [_generate_and_play]. *)
Definition synthesize_and_play (w : world) (message config : json) (tmp_path : str)
    : io unit :=
  voice <~ io_lift (get config (py "voice") (JStr (py "en-US-GuyNeural"))) ;;
  rate <~ io_lift (get config (py "rate") (JStr (py "+0%"))) ;;
  volume <~ io_lift (get config (py "volume") (JStr (py "+0%"))) ;;
  pitch <~ io_lift (get config (py "pitch") (JStr (py "+0Hz"))) ;;
  _ <~ io_act (Synthesize message voice rate volume pitch tmp_path) ;;
  _ <~ io_lift (synthesize w message voice rate volume pitch tmp_path) ;;
  play_mp3 w tmp_path.

(** [out] is [template] rendered with [value] for the placeholder [ph]:
    however the template is cut into segments at [ph], [out] is the same
    segments joined by [value]; and around a placeholder of another name,
    [out] is what comes before, rendered, the placeholder as it stands,
    and what comes after, rendered. *)
Definition rendering (ph template value out : str) : Prop :=
  (forall segs, segments_of template ph segs -> out = Py.join value segs) /\
  (forall a name b before after,
     brace_free name -> placeholder name <> ph ->
     template = a ++ placeholder name ++ b ->
     segments_of a ph before -> segments_of b ph after ->
     out = Py.join value before ++ placeholder name ++ Py.join value after).

(** The template a Stop event is rendered from under [config]. *)
Definition stop_template (config : list (str * json)) (template : str) : Prop :=
  exists messages,
    get (JObj config) (py "messages") DEFAULT_MESSAGES = Ok messages /\
    get messages (py "stop") (JStr (py "Done. {summary}")) = Ok (JStr template).

(** The event's [notification_type] and [message], as the resolver reads
    them. *)
Definition notification_type (event : list (str * json)) : json :=
  match lookup (py "notification_type") event with
  | Some tag => tag
  | None => JStr []
  end.

Definition event_message (event : list (str * json)) : json :=
  match lookup (py "message") event with
  | Some message => message
  | None => JStr (py "Notification")
  end.

(** The template a Notification event is rendered from under [config]:
    the one of its sub-type, else [notification_default]. *)
Definition notification_template (w : world) (event config : list (str * json))
    (template : str) : Prop :=
  exists messages fallback,
    get (JObj config) (py "messages") DEFAULT_MESSAGES = Ok messages /\
    get messages (py "notification_default") (JStr (py "{message}"))
    = Ok fallback /\
    get messages (notification_key w (notification_type event)) fallback
    = Ok (JStr template).

(** The event's [transcript_summary], as the resolver reads it. *)
Definition transcript_summary (event : list (str * json)) : json :=
  match lookup (py "transcript_summary") event with
  | Some summary => summary
  | None => JStr []
  end.

(** The four settings [config] gives the synthesizer. *)
Definition voice_settings (config voice rate volume pitch : json) : Prop :=
  get config (py "voice") (JStr (py "en-US-GuyNeural")) = Ok voice /\
  get config (py "rate") (JStr (py "+0%")) = Ok rate /\
  get config (py "volume") (JStr (py "+0%")) = Ok volume /\
  get config (py "pitch") (JStr (py "+0Hz")) = Ok pitch.

(** The run resolved [message] for speech: the prelude passed and
    [resolve_message] returned [message], true as a condition, for the
    event and the configuration of the prelude. *)
Definition resolved_for_speech (w : world) (config message : json) : Prop :=
  exists pre event,
    prelude w = (pre, Ok (Some (event, config))) /\
    resolve_message w event config = Ok message /\
    truthy message = true.

(** A configuration whose prompt template is a number. *)
Definition number_prompt_world : world :=
  with_synthesis
    (with_config_file prompt_world
       (Ok (JObj [(py "messages", JObj [(py "prompt_submit", JInt 5)])])))
    (Raise TypeError).

(** The event's [transcript_path], as the resolver reads it. *)
Definition transcript_path (event : list (str * json)) : json :=
  match lookup (py "transcript_path") event with
  | Some path => path
  | None => JStr []
  end.

(** The summary a Stop event is rendered with in the world [w]: its own
    [transcript_summary] when that is a string that is not empty; else
    what [_extract_summary] returns for its [transcript_path], when it
    names one; else the empty string. *)
Definition stop_summary (w : world) (event : list (str * json)) (value : str)
    : Prop :=
  (transcript_summary event = JStr value /\ value <> [])
  \/ (truthy (transcript_summary event) = false /\
      truthy (transcript_path event) = true /\
      _extract_summary w (transcript_path event) = Ok value)
  \/ (truthy (transcript_summary event) = false /\
      truthy (transcript_path event) = false /\
      value = []).

(** * Properties *)

(** ** Strings *)

(** The string operations on the inputs of CPython's documentation. *)
Example find_examples :
  Py.find (py "a.b.c") (py ".") = 1 /\ Py.rfind (py "a.b.c") (py ".") = 3 /\
  Py.find (py "abc") (py ".") = -1 /\ Py.rfind (py "abc") (py ".") = -1 /\
  Py.find (py ".abc") (py ".") = 0.
Proof. repeat split. Qed.

Example slice_examples :
  Py.slice_to (py "hello") 3 = py "hel" /\ Py.slice_to (py "hello") 9 = py "hello" /\
  Py.slice_to (py "hello") (-2) = py "hel" /\ Py.slice_to (py "hello") (-9) = [] /\
  Py.slice_to (py "hello") 0 = [].
Proof. repeat split. Qed.

Example strip_examples :
  Py.strip (py "  a b " ++ [10%N]) = py "a b" /\
  Py.rstrip (py "  a b  ") = py "  a b" /\
  Py.strip (py "   ") = [].
Proof. repeat split. Qed.

Example splitlines_examples :
  Py.splitlines (py "ab" ++ [13; 10]%N ++ py "cd" ++ [10]%N) = [py "ab"; py "cd"] /\
  Py.splitlines (py "ab" ++ [10; 10]%N ++ py "cd") = [py "ab"; []; py "cd"] /\
  Py.splitlines [] = [].
Proof. repeat split. Qed.

Example replace_examples :
  Py.replace (py "aaa") (py "aa") (py "b") = py "ba" /\
  Py.replace (py "a-b-c") (py "-") (py "--") = py "a--b--c" /\
  Py.replace (py "abc") [] (py "-") = py "-a-b-c-" /\
  Py.replace (py "abc") (py "x") (py "y") = py "abc".
Proof. repeat split. Qed.

Lemma len_nonneg (s : str) : 0 <= Py.len s.
Proof. unfold Py.len. lia. Qed.

Lemma len_app (a b : str) : Py.len (a ++ b) = Py.len a + Py.len b.
Proof. unfold Py.len. rewrite length_app. lia. Qed.

Lemma prefix_of_refl (s : str) : Py.prefix_of s s.
Proof. exists []. now rewrite app_nil_r. Qed.

Lemma prefix_of_trans (a b c : str) :
  Py.prefix_of a b -> Py.prefix_of b c -> Py.prefix_of a c.
Proof.
  intros [t ->] [u ->]. exists (t ++ u). now rewrite app_assoc.
Qed.

Lemma prefix_of_firstn (n : nat) (s : str) : Py.prefix_of (firstn n s) s.
Proof. exists (skipn n s). now rewrite firstn_skipn. Qed.

Lemma prefix_of_len (p s : str) : Py.prefix_of p s -> Py.len p <= Py.len s.
Proof. intros [t ->]. rewrite len_app. pose proof (len_nonneg t). lia. Qed.

Lemma slice_to_prefix (s : str) (n : Z) : Py.prefix_of (Py.slice_to s n) s.
Proof. unfold Py.slice_to. destruct (n <? 0); apply prefix_of_firstn. Qed.

Lemma slice_to_nonneg (s : str) (n : Z) :
  0 <= n -> Py.slice_to s n = firstn (Z.to_nat n) s.
Proof.
  intros H. unfold Py.slice_to.
  destruct (Z.ltb_spec n 0); [lia | reflexivity].
Qed.

Lemma slice_to_len (s : str) (n : Z) : 0 <= n -> Py.len (Py.slice_to s n) <= n.
Proof.
  intros H. rewrite slice_to_nonneg by assumption. unfold Py.len.
  pose proof (firstn_le_length (Z.to_nat n) s). lia.
Qed.

Lemma lstrip_suffix (s : str) : exists ws, s = ws ++ Py.lstrip s /\ forallb Py.isspace ws = true.
Proof.
  induction s as [|c s IH]; simpl.
  - now exists [].
  - destruct (Py.isspace c) eqn:E.
    + destruct IH as [ws [Hs Hws]]. exists (c :: ws). simpl.
      rewrite E, Hws. split; [now f_equal | reflexivity].
    + now exists [].
Qed.

(** [rstrip] removes a run of whitespace from the end, and nothing else. *)
Lemma rstrip_spec (s : str) :
  exists ws, s = Py.rstrip s ++ ws /\ forallb Py.isspace ws = true.
Proof.
  unfold Py.rstrip. destruct (lstrip_suffix (rev s)) as [ws [Hs Hws]].
  exists (rev ws). split.
  - rewrite <- rev_app_distr, <- Hs. now rewrite rev_involutive.
  - rewrite forallb_forall in *. intros x Hx. apply Hws. now apply in_rev.
Qed.

Lemma lstrip_head (s : str) :
  match Py.lstrip s with [] => True | c :: _ => Py.isspace c = false end.
Proof.
  induction s as [|c s IH]; simpl; [exact I|].
  destruct (Py.isspace c) eqn:E; [exact IH | exact E].
Qed.

(** What [rstrip] returns does not end in whitespace. *)
Lemma rstrip_last (s : str) :
  match rev (Py.rstrip s) with [] => True | c :: _ => Py.isspace c = false end.
Proof. unfold Py.rstrip. rewrite rev_involutive. apply lstrip_head. Qed.

Lemma rstrip_prefix (s : str) : Py.prefix_of (Py.rstrip s) s.
Proof. destruct (rstrip_spec s) as [ws [H _]]. now exists ws. Qed.

Lemma rstrip_len (s : str) : Py.len (Py.rstrip s) <= Py.len s.
Proof. apply prefix_of_len, rstrip_prefix. Qed.

Lemma rfind_from_absent (c : Py.char) (s : str) (i : Z) :
  ~ In c s -> Py.rfind_from i s [c] = -1.
Proof.
  revert i. induction s as [|d s IH]; intros i H; simpl; [reflexivity|].
  rewrite IH by (intros Hc; apply H; now right). simpl.
  destruct (N.eqb_spec c d) as [->|_]; [|reflexivity].
  exfalso. apply H. now left.
Qed.

Lemma In_firstn (c : Py.char) (n : nat) (s : str) : In c (firstn n s) -> In c s.
Proof.
  intros H. rewrite <- (firstn_skipn n s). apply in_or_app. now left.
Qed.

(** ** Length capping *)

Example truncate_examples :
  _truncate (py "Done. All done") MAX_MESSAGE_LENGTH = py "Done. All done" /\
  _truncate (py "One two. Three four") 12 = py "One two." /\
  _truncate (py "One. Two three four") 12 = py "One. Two thr." /\
  _truncate (py "One two three four") 8 = py "One two." /\
  _truncate (py "One two") (-1) = py "One tw." /\
  _truncate (py "One two") (-3) = [].
Proof. repeat split. Qed.

Lemma truncate_within (text : str) (max_len : Z) :
  Py.len text <= max_len -> _truncate text max_len = text.
Proof.
  intros H. unfold _truncate.
  destruct (Z.leb_spec (Py.len text) max_len); [reflexivity | lia].
Qed.

(** C7. For every text, length capping at the default maximum of 200
    returns a string of at most 201 characters. *)
Theorem truncate_default_at_most_201 (text : str) :
  Py.len (_truncate text MAX_MESSAGE_LENGTH) <= 201.
Proof.
  unfold _truncate, MAX_MESSAGE_LENGTH.
  destruct (Z.leb_spec (Py.len text) 200) as [Hle|Hgt]; [lia|].
  set (cut := Py.slice_to text 200).
  assert (Hcut : Py.len cut <= 200) by (apply slice_to_len; lia).
  destruct (Py.rfind cut (py ".") >? 200 / 2).
  - pose proof (prefix_of_len _ _ (slice_to_prefix cut (Py.rfind cut (py ".") + 1))).
    lia.
  - rewrite len_app. pose proof (rstrip_len cut).
    change (Py.len (py ".")) with 1. lia.
Qed.

(** C8. For every text longer than 200 characters that contains no period,
    length capping returns the first 200 characters, stripped of trailing
    whitespace, followed by one period. *)
Theorem truncate_no_period (text : str) :
  Py.len text > 200 ->
  ~ In Py.period text ->
  _truncate text MAX_MESSAGE_LENGTH = Py.rstrip (firstn 200 text) ++ [Py.period].
Proof.
  intros Hlen Hno. unfold _truncate, MAX_MESSAGE_LENGTH.
  destruct (Z.leb_spec (Py.len text) 200) as [Hle|_]; [lia|].
  rewrite slice_to_nonneg by lia. change (Z.to_nat 200) with 200%nat.
  change (py ".") with [Py.period]. unfold Py.rfind.
  rewrite rfind_from_absent by (intros H; apply Hno; eapply In_firstn; eassumption).
  reflexivity.
Qed.

Lemma truncate_no_period_witness :
  Py.len (repeat 97%N 250) > 200 /\
  ~ In Py.period (repeat 97%N 250) /\
  _truncate (repeat 97%N 250) MAX_MESSAGE_LENGTH
    = Py.rstrip (firstn 200 (repeat 97%N 250)) ++ [Py.period].
Proof.
  assert (H1 : Py.len (repeat 97%N 250) > 200) by (vm_compute; reflexivity).
  assert (H2 : ~ In Py.period (repeat 97%N 250)).
  { intros H. apply repeat_spec in H. discriminate H. }
  split; [exact H1|]. split; [exact H2|].
  exact (truncate_no_period (repeat 97%N 250) H1 H2).
Defined.

(** C10. For every text and every maximum length, what length capping
    returns is a prefix of the text, or a prefix of the text with its
    trailing whitespace removed and one period appended. *)
Theorem truncate_prefix_or_clipped (text : str) (max_len : Z) :
  Py.prefix_of (_truncate text max_len) text \/
  exists p, Py.prefix_of p text /\
            _truncate text max_len = Py.rstrip p ++ [Py.period].
Proof.
  unfold _truncate.
  destruct (Py.len text <=? max_len).
  - left. apply prefix_of_refl.
  - destruct (Py.rfind (Py.slice_to text max_len) (py ".") >? max_len / 2).
    + left. eapply prefix_of_trans; apply slice_to_prefix.
    + right. exists (Py.slice_to text max_len). split.
      * apply slice_to_prefix.
      * reflexivity.
Qed.

(** ** Template rendering: [str.replace] *)

Lemma startswith_true (p s : str) :
  Py.startswith p s = true <-> exists t, s = p ++ t.
Proof.
  revert s. induction p as [|c p IH]; intros s; simpl.
  - split; [intros _; now exists s | reflexivity].
  - destruct s as [|d s].
    + split; [discriminate | intros [t H]; discriminate H].
    + rewrite andb_true_iff, N.eqb_eq, IH. split.
      * intros [-> [t ->]]. now exists t.
      * intros [t H]. injection H as -> ->. split; [reflexivity | now exists t].
Qed.

Lemma startswith_app (p t : str) : Py.startswith p (p ++ t) = true.
Proof. apply startswith_true. now exists t. Qed.

Lemma startswith_head (h c : Py.char) (tl s : str) :
  c <> h -> Py.startswith (h :: tl) (c :: s) = false.
Proof.
  intros H. simpl. destruct (N.eqb_spec h c) as [->|_]; [contradiction | reflexivity].
Qed.

Lemma replace_scan_skip (old new s : str) (k : nat) :
  Py.replace_scan old new s k = Py.replace_scan old new (skipn k s) 0.
Proof.
  revert k. induction s as [|c s IH]; intros [|k]; simpl; try reflexivity.
  apply IH.
Qed.

(** At an occurrence of [old] the scan emits [new] and goes on after it. *)
Lemma replace_scan_match (h : Py.char) (tl new t : str) :
  Py.replace_scan (h :: tl) new ((h :: tl) ++ t) 0
  = new ++ Py.replace_scan (h :: tl) new t 0.
Proof.
  change ((h :: tl) ++ t) with (h :: (tl ++ t)).
  cbn [Py.replace_scan].
  change (h :: (tl ++ t)) with ((h :: tl) ++ t). rewrite startswith_app.
  rewrite replace_scan_skip. f_equal. f_equal.
  cbn [List.length]. rewrite Nat.sub_succ, Nat.sub_0_r.
  rewrite skipn_app, skipn_all, Nat.sub_diag. reflexivity.
Qed.

(** Elsewhere it copies the character. *)
Lemma replace_scan_copy (old new s : str) (c : Py.char) :
  Py.startswith old (c :: s) = false ->
  Py.replace_scan old new (c :: s) 0 = c :: Py.replace_scan old new s 0.
Proof. intros H. cbn [Py.replace_scan]. now rewrite H. Qed.

Lemma replace_scan_nil (old new : str) : Py.replace_scan old new [] 0 = [].
Proof. reflexivity. Qed.

Lemma occurs_cons (sub s : str) (c : Py.char) :
  Py.occurs sub s -> Py.occurs sub (c :: s).
Proof. intros [a [b ->]]. now exists (c :: a), b. Qed.

Lemma occurs_prefix (sub t : str) : Py.occurs sub (sub ++ t).
Proof. now exists [], t. Qed.

Lemma occursb_complete (sub s : str) :
  Py.occurs sub s -> Py.occursb sub s = true.
Proof.
  intros [a [b ->]]. induction a as [|c a IH].
  - pose proof (startswith_app sub b) as H. simpl app.
    destruct (sub ++ b); cbn [Py.occursb]; now rewrite H.
  - simpl app. cbn [Py.occursb]. rewrite IH. apply orb_true_r.
Qed.

Lemma occursb_false (sub s : str) :
  Py.occursb sub s = false -> ~ Py.occurs sub s.
Proof.
  intros H Ho. apply occursb_complete in Ho. congruence.
Qed.

Section Replace.

(** A pattern whose first character occurs nowhere else in it: two of its
    occurrences in a text cannot overlap. *)
Variables (h : Py.char) (tl : str).
Hypothesis h_fresh : ~ In h tl.

Let old : str := h :: tl.

(** No occurrence of the pattern starts inside a non-empty [a] and ends
    beyond it, when what follows [a] starts with the pattern's first
    character. *)
Lemma no_straddle (a rest t : str) :
  a <> [] -> a ++ h :: rest = old ++ t -> exists l, a = old ++ l.
Proof.
  intros Hne H. apply app_eq_app in H. destruct H as [l [[Ha _]|[Ho Hr]]].
  - now exists l.
  - destruct l as [|x l].
    + exists []. rewrite app_nil_r in Ho |- *. now symmetry.
    + exfalso. injection Hr as <-.
      destruct a as [|c a]; [now apply Hne|].
      unfold old in Ho. simpl in Ho. injection Ho as _ Htl.
      apply h_fresh. rewrite Htl. apply in_or_app. right. now left.
Qed.

(** A stretch [seg] without the pattern is copied, and the occurrence after
    it replaced. *)
Lemma replace_scan_segment (new seg rest : str) :
  ~ Py.occurs old seg ->
  Py.replace_scan old new (seg ++ old ++ rest) 0
  = seg ++ new ++ Py.replace_scan old new rest 0.
Proof.
  induction seg as [|c seg IH]; intros Hfree.
  - apply replace_scan_match.
  - change ((c :: seg) ++ old ++ rest) with (c :: (seg ++ old ++ rest)).
    rewrite replace_scan_copy.
    + simpl. f_equal. apply IH. intros Ho. apply Hfree. now apply occurs_cons.
    + destruct (Py.startswith old (c :: seg ++ old ++ rest)) eqn:E; [|reflexivity].
      exfalso. apply startswith_true in E. destruct E as [t Ht].
      destruct (no_straddle (c :: seg) (tl ++ rest) t) as [l Hl].
      * discriminate.
      * exact Ht.
      * apply Hfree. rewrite Hl. apply occurs_prefix.
Qed.

(** A text without the pattern is copied. *)
Lemma replace_scan_free (new seg : str) :
  ~ Py.occurs old seg -> Py.replace_scan old new seg 0 = seg.
Proof.
  induction seg as [|c seg IH]; intros Hfree; [reflexivity|].
  rewrite replace_scan_copy.
  - f_equal. apply IH. intros Ho. apply Hfree. now apply occurs_cons.
  - destruct (Py.startswith old (c :: seg)) eqn:E; [|reflexivity].
    exfalso. apply startswith_true in E. destruct E as [t Ht].
    apply Hfree. rewrite Ht. apply occurs_prefix.
Qed.

(** Replacing the separator of a joined text joins the same segments with
    the new text. *)
Lemma replace_join (new : str) (segs : list str) :
  Forall (fun s => ~ Py.occurs old s) segs ->
  Py.replace (Py.join old segs) old new = Py.join new segs.
Proof.
  unfold Py.replace. change (match old with [] => _ | _ :: _ => ?x end) with x.
  induction 1 as [|seg segs Hseg Hsegs IH]; [reflexivity|].
  destruct segs as [|seg' segs].
  - simpl. now apply replace_scan_free.
  - change (Py.join old (seg :: seg' :: segs))
      with (seg ++ old ++ Py.join old (seg' :: segs)).
    change (Py.join new (seg :: seg' :: segs))
      with (seg ++ new ++ Py.join new (seg' :: segs)).
    rewrite replace_scan_segment by assumption. now rewrite IH.
Qed.

(** Every text is some segments without the pattern, joined by it. *)
Lemma segments_exist (t : str) :
  exists seg segs, t = Py.join old (seg :: segs) /\
                   Forall (fun s => ~ Py.occurs old s) (seg :: segs).
Proof.
  remember (List.length t) as n eqn:Hn.
  assert (Hle : (List.length t <= n)%nat) by lia. clear Hn.
  revert t Hle. induction n as [|n IH]; intros t Hle.
  - destruct t; [|simpl in Hle; lia].
    exists [], []. split; [reflexivity|]. constructor; [|constructor].
    intros [a [b H]]. destruct a; discriminate H.
  - destruct t as [|c t].
    { apply IH. simpl. lia. }
    destruct (Py.startswith old (c :: t)) eqn:E.
    + apply startswith_true in E. destruct E as [t' Ht'].
      destruct (IH t') as [seg [segs [Hj Hf]]].
      { apply (f_equal (@List.length _)) in Ht'. rewrite length_app in Ht'.
        unfold old in Ht'. simpl in Ht', Hle. lia. }
      exists [], (seg :: segs). split.
      * rewrite Ht', Hj. reflexivity.
      * constructor; [|assumption].
        intros [a [b H]]. destruct a; discriminate H.
    + destruct (IH t) as [seg [segs [Hj Hf]]]; [simpl in Hle; lia|].
      exists (c :: seg), segs. split.
      * rewrite Hj. destruct segs; reflexivity.
      * apply Forall_cons_iff in Hf. destruct Hf as [Hseg Hsegs].
        constructor; [|assumption].
        intros [a [b H]]. destruct a as [|c' a].
        -- assert (Py.startswith old (c :: Py.join old (seg :: segs)) = true)
             as Hs; [|rewrite <- Hj in Hs; congruence].
           apply startswith_true. destruct segs as [|seg' segs].
           ++ exists b. exact H.
           ++ exists (b ++ old ++ Py.join old (seg' :: segs)).
              change (Py.join old (seg :: seg' :: segs))
                with (seg ++ old ++ Py.join old (seg' :: segs)).
              rewrite app_comm_cons, H. now rewrite <- !app_assoc.
        -- injection H as _ H. apply Hseg. now exists a, b.
Qed.

(** Characters other than the pattern's first are copied. *)
Lemma replace_scan_plain (new body rest : str) :
  ~ In h body ->
  Py.replace_scan old new (body ++ rest) 0
  = body ++ Py.replace_scan old new rest 0.
Proof.
  induction body as [|c body IH]; intros Hh; [reflexivity|].
  change ((c :: body) ++ rest) with (c :: (body ++ rest)).
  rewrite replace_scan_copy.
  - simpl. f_equal. apply IH. intros Hin. apply Hh. now right.
  - apply startswith_head. intros ->. apply Hh. now left.
Qed.

(** A text [u] that starts with the pattern's first character, holds it
    nowhere else and is not the start of an occurrence stays as it is, and
    what stands before and after it is rendered on its own. *)
Lemma replace_scan_around (new body a b : str) :
  ~ In h body ->
  (forall b' t, (h :: body) ++ b' <> old ++ t) ->
  Py.replace_scan old new (a ++ (h :: body) ++ b) 0
  = Py.replace_scan old new a 0 ++ (h :: body) ++ Py.replace_scan old new b 0.
Proof.
  intros Hbody Hu.
  remember (List.length a) as n eqn:Hn.
  assert (Hle : (List.length a <= n)%nat) by lia. clear Hn.
  revert a Hle. induction n as [|n IH]; intros a Hle.
  - destruct a; [|simpl in Hle; lia]. simpl app at 1.
    change ((h :: body) ++ b) with (h :: (body ++ b)).
    rewrite replace_scan_copy.
    + now rewrite replace_scan_plain.
    + destruct (Py.startswith old (h :: body ++ b)) eqn:E; [|reflexivity].
      apply startswith_true in E. destruct E as [t Ht].
      exfalso. exact (Hu b t Ht).
  - destruct a as [|c a]; [apply IH; simpl; lia|].
    destruct (Py.startswith old ((c :: a) ++ (h :: body) ++ b)) eqn:E.
    + apply startswith_true in E. destruct E as [t Ht].
      destruct (no_straddle (c :: a) (body ++ b) t) as [l Hl];
        [discriminate | exact Ht |].
      rewrite Hl, <- app_assoc. unfold old. rewrite !replace_scan_match.
      rewrite IH, <- app_assoc; [reflexivity|].
      apply (f_equal (@List.length _)) in Hl. rewrite length_app in Hl.
      unfold old in Hl. simpl in Hl, Hle. lia.
    + assert (E' : Py.startswith old (c :: a) = false).
      { destruct (Py.startswith old (c :: a)) eqn:E'; [|reflexivity].
        apply startswith_true in E'. destruct E' as [t Ht].
        rewrite Ht, <- app_assoc, startswith_app in E. discriminate E. }
      change ((c :: a) ++ (h :: body) ++ b) with (c :: (a ++ (h :: body) ++ b)) in *.
      rewrite !replace_scan_copy by assumption.
      simpl. f_equal. apply IH. simpl in Hle. lia.
Qed.

End Replace.

Lemma placeholder_cons (name : str) :
  placeholder name = 123%N :: (name ++ [125%N]).
Proof. reflexivity. Qed.

Lemma brace_free_tail (name : str) :
  brace_free name -> ~ In 123%N (name ++ [125%N]).
Proof.
  intros [Ho _] H. apply in_app_or in H. destruct H as [H|[H|[]]].
  - now apply Ho.
  - discriminate H.
Qed.

(** Two placeholders of which one starts with the other have one name. *)
Lemma placeholder_prefix (name key b t : str) :
  brace_free name -> brace_free key ->
  placeholder name ++ b = placeholder key ++ t -> name = key.
Proof.
  intros [_ Hn] [_ Hk] H. rewrite !placeholder_cons in H.
  simpl in H. injection H as H. rewrite <- !app_assoc in H.
  apply app_eq_app in H. destruct H as [l [[H1 H2]|[H1 H2]]];
    (destruct l as [|x l]; [now rewrite app_nil_r in H1|]);
    exfalso; simpl in H2; injection H2 as <- _.
  - apply Hn. rewrite H1. apply in_or_app. right. now left.
  - apply Hk. rewrite H1. apply in_or_app. right. now left.
Qed.

Lemma renders_placeholder (key : str) :
  brace_free key -> renders_once (placeholder key).
Proof.
  intros Hkey template value. rewrite placeholder_cons.
  pose proof (brace_free_tail key Hkey) as Hfresh.
  split; [|split].
  - destruct (segments_exist 123%N (key ++ [125%N]) template)
      as [seg [segs [Hj Hf]]].
    exists (seg :: segs). now split.
  - intros segs [-> Hf]. unfold replace. f_equal.
    now apply replace_join.
  - intros a name b Hname Hne ->. rewrite placeholder_cons in *.
    unfold Py.replace. apply replace_scan_around.
    + assumption.
    + now apply brace_free_tail.
    + intros b' t H. apply Hne. f_equal.
      rewrite <- !placeholder_cons in H.
      now rewrite (placeholder_prefix name key b' t).
Qed.

Lemma brace_free_summary : brace_free (py "summary").
Proof. split; intros H; simpl in H; intuition discriminate. Qed.

Lemma brace_free_message : brace_free (py "message").
Proof. split; intros H; simpl in H; intuition discriminate. Qed.

Example render_stop_example :
  replace (JStr (py "Done. {summary} {detail} {summary}"))
          (py "{summary}") (JStr (py "All {summary} done"))
  = Ok (py "Done. All {summary} done {detail} All {summary} done").
Proof. reflexivity. Qed.

(** ** The configuration loader *)

(** C4, as stated, fails on an unreadable file: the error is raised past
    [load_config], with no diagnostic. *)
Lemma load_config_unreadable_raises :
  load_config (with_config_file quiet (Raise PermissionError))
  = ([], Raise PermissionError).
Proof. reflexivity. Qed.

(** C4, amended. When opening and parsing the configuration file returns
    a document, [load_config] returns it. When that raises
    [FileNotFoundError] (the file is absent) or [JSONDecodeError] (it is
    not JSON) and the diagnostic can be printed, [load_config] prints one
    diagnostic and returns the built-in default mapping. Every other
    exception of the read (an unreadable file, a file that is not UTF-8,
    an integer of too many digits) is raised past it with no diagnostic,
    and so is a failure of the print. *)
Theorem load_config_boundary (w : world) :
  match config_file w with
  | Ok document => load_config w = ([], Ok document)
  | Raise e =>
      if exc_eqb e FileNotFoundError || exc_eqb e JSONDecodeError
      then match stderr_write w (py "Config error, using defaults: ") e with
           | Ok _ =>
               load_config w
               = ([Stderr (py "Config error, using defaults: ") e],
                  Ok DEFAULT_CONFIG)
           | Raise e' => load_config w = ([], Raise e')
           end
      else load_config w = ([], Raise e)
  end.
Proof.
  unfold load_config, print_stderr.
  destruct (config_file w) as [document|e]; [reflexivity|].
  destruct e; try reflexivity; cbn;
    destruct (stderr_write w _ _) as [[]|e']; reflexivity.
Qed.

Example load_config_not_utf8 :
  load_config (with_config_file quiet (Raise UnicodeDecodeError))
  = ([], Raise UnicodeDecodeError).
Proof. reflexivity. Qed.

Example load_config_print_fails :
  load_config (with_stderr_error quiet OSError) = ([], Raise OSError).
Proof. reflexivity. Qed.

Example load_config_absent :
  load_config quiet
  = ([Stderr (py "Config error, using defaults: ") FileNotFoundError],
     Ok DEFAULT_CONFIG).
Proof. reflexivity. Qed.

(** ** The transcript summarizer *)

Example extract_summary_last_line :
  _extract_summary two_line_world (JStr (py "t.jsonl"))
  = Ok (py "Line two?").
Proof. reflexivity. Qed.

(** C2, at a line of 30 characters: the summarizer does not return the
    line unchanged, it cuts it after its first period. *)
Lemma extract_summary_cuts_short_line :
  _extract_summary (with_transcript quiet
                      [assistant_says (py "All tests pass. Ready to merge")])
                   (JStr (py "t.jsonl"))
  = Ok (py "All tests pass.").
Proof. reflexivity. Qed.

(** ** The message resolver: missing keys *)

Lemma eqb_eq (a b : str) : Py.eqb a b = true <-> a = b.
Proof.
  unfold Py.eqb. destruct (list_eq_dec N.eq_dec a b); split; congruence.
Qed.

Lemma eqb_neq (a b : str) : a <> b -> Py.eqb a b = false.
Proof.
  intros H. unfold Py.eqb. destruct (list_eq_dec N.eq_dec a b); congruence.
Qed.

Lemma lookup_app (k : str) (a b : list (str * json)) :
  lookup k (a ++ b)
  = match lookup k a with Some v => Some v | None => lookup k b end.
Proof.
  induction a as [|[k' v] a IH]; simpl; [reflexivity|].
  destruct (Py.eqb k k'); [reflexivity | exact IH].
Qed.

(** A lookup whose default is the template [LOOKUP_DEFAULTS] gives the key
    does not see the overlay. *)
Lemma get_overlay (messages : list (str * json)) (k : str) (default : json) :
  lookup k LOOKUP_DEFAULTS = Some default ->
  get (JObj (overlay messages LOOKUP_DEFAULTS)) k default
  = get (JObj messages) k default.
Proof.
  intros H. unfold get, overlay. rewrite lookup_app, H.
  now destruct (lookup k messages).
Qed.

Lemma lookup_defaults_notification (suffix : str) :
  lookup (py "notification_" ++ suffix) LOOKUP_DEFAULTS
  = if Py.eqb (py "notification_" ++ suffix) (py "notification_default")
    then Some (JStr (py "{message}")) else None.
Proof.
  unfold LOOKUP_DEFAULTS, lookup.
  rewrite (eqb_neq _ (py "prompt_submit")) by discriminate.
  rewrite (eqb_neq _ (py "stop")) by discriminate.
  reflexivity.
Qed.

(** Nor does the lookup of a notification key, with its fallback. *)
Lemma get_overlay_notification (w : world) (messages : list (str * json))
    (notif_type : json) :
  let fallback := match lookup (py "notification_default") messages with
                  | Some v => v
                  | None => JStr (py "{message}")
                  end in
  get (JObj (overlay messages LOOKUP_DEFAULTS))
      (notification_key w notif_type) fallback
  = get (JObj messages) (notification_key w notif_type) fallback.
Proof.
  intros fallback. unfold get, overlay. rewrite lookup_app. f_equal.
  destruct (lookup (notification_key w notif_type) messages) eqn:E; [reflexivity|].
  unfold notification_key in *. rewrite lookup_defaults_notification.
  destruct (Py.eqb _ (py "notification_default")) eqn:Ek; [|reflexivity].
  apply eqb_eq in Ek. rewrite Ek in E. unfold fallback. now rewrite E.
Qed.

Lemma get_messages (config messages : list (str * json)) (default : json) :
  lookup (py "messages") config = Some (JObj messages) ->
  get (JObj config) (py "messages") default = Ok (JObj messages).
Proof. intros H. unfold get. now rewrite H. Qed.

Lemma get_with_messages (config messages : list (str * json)) (default : json) :
  get (with_messages config messages) (py "messages") default
  = Ok (JObj messages).
Proof. reflexivity. Qed.

Lemma replace_whole (ph value : str) :
  ph <> [] -> Py.replace ph ph value = value.
Proof.
  destruct ph as [|h tl]; [congruence|]. intros _. unfold Py.replace.
  rewrite <- (app_nil_r (h :: tl)) at 2. rewrite replace_scan_match.
  apply app_nil_r.
Qed.

(** C5, as stated, fails: under a messages mapping that lacks both
    [notification_idle_prompt] and [notification_default], an idle-prompt
    notification resolves to the event's message (here the default
    [Notification]); under the overlay of the built-in mapping it would
    resolve to the built-in template. *)
Lemma missing_idle_prompt_not_overlaid :
  resolve_message quiet (idle_prompt_event []) (JObj [(py "messages", JObj [])])
  = Ok (JStr (py "Notification")) /\
  resolve_message quiet (idle_prompt_event [])
    (with_messages [(py "messages", JObj [])] (overlay [] DEFAULT_MESSAGE_ITEMS))
  = Ok (JStr (py "Waiting for your input.")).
Proof. split; reflexivity. Qed.

(** C5, amended. Under a configuration whose messages mapping is present,
    [resolve_message] behaves as if each of [prompt_submit], [stop] and
    [notification_default] that the mapping lacks were bound to its
    built-in template. A missing sub-type key is not bound to that
    sub-type's built-in template: under a mapping that lacks both
    [notification_idle_prompt] and [notification_default], an idle-prompt
    notification resolves to its own message, length-capped. *)
Theorem missing_keys_fall_back (w : world) (event : json)
    (config messages : list (str * json)) (raw : str) :
  lookup (py "messages") config = Some (JObj messages) ->
  resolve_message w event (JObj config)
  = resolve_message w event
      (with_messages config (overlay messages LOOKUP_DEFAULTS))
  /\
  (lookup (py "notification_idle_prompt") messages = None ->
   lookup (py "notification_default") messages = None ->
   resolve_message w (idle_prompt_event [(py "message", JStr raw)]) (JObj config)
   = Ok (JStr (_truncate raw MAX_MESSAGE_LENGTH))).
Proof.
  intros Hm. split.
  - unfold resolve_message.
    destruct (get event (py "hook_event_name") (JStr [])) as [hook_event|e];
      [|reflexivity].
    rewrite (get_messages config messages) by assumption.
    rewrite get_with_messages. cbn [bind].
    destruct (eq_str hook_event (py "UserPromptSubmit")).
    { now rewrite get_overlay. }
    destruct (eq_str hook_event (py "Stop")).
    { now rewrite get_overlay. }
    destruct (eq_str hook_event (py "Notification")); [|reflexivity].
    destruct (get event (py "notification_type") (JStr [])) as [notif_type|e];
      [|reflexivity].
    cbn [bind]. rewrite get_overlay by reflexivity.
    unfold get at 1 4. cbn [bind].
    now rewrite get_overlay_notification.
  - intros Hidle Hdefault. unfold resolve_message.
    rewrite (get_messages config messages) by assumption.
    cbn.
    match goal with |- context [lookup ?k messages] =>
      change (lookup k messages)
        with (lookup (py "notification_idle_prompt") messages)
    end.
    match goal with |- context [lookup ?k messages] =>
      change (lookup k messages)
        with (lookup (py "notification_default") messages)
    end.
    rewrite Hidle, Hdefault. cbn [bind replace].
    do 3 f_equal. apply (replace_whole (py "{message}")). discriminate.
Qed.

Lemma missing_keys_fall_back_witness :
  resolve_message quiet prompt_event (JObj [(py "messages", JObj [])])
  = resolve_message quiet prompt_event
      (with_messages [(py "messages", JObj [])] (overlay [] LOOKUP_DEFAULTS))
  /\
  (lookup (py "notification_idle_prompt") [] = None ->
   lookup (py "notification_default") [] = None ->
   resolve_message quiet (idle_prompt_event [(py "message", JStr (py "Are you there?"))])
                   (JObj [(py "messages", JObj [])])
   = Ok (JStr (_truncate (py "Are you there?") MAX_MESSAGE_LENGTH))).
Proof.
  exact (missing_keys_fall_back quiet prompt_event [(py "messages", JObj [])] []
           (py "Are you there?") eq_refl).
Defined.

(** ** The entry point: when it speaks *)

Lemma io_bind_assoc {A B C : Type} (m : io A) (f : A -> io B) (g : B -> io C) :
  io_bind (io_bind m f) g = io_bind m (fun a => io_bind (f a) g).
Proof.
  destruct m as [tr [a|e]]; simpl; [|reflexivity].
  destruct (f a) as [tr' [b|e']]; simpl; [|reflexivity].
  destruct (g b) as [tr'' r]. now rewrite app_assoc.
Qed.

Lemma io_bind_ext {A B : Type} (m : io A) (f g : A -> io B) :
  (forall a, f a = g a) -> io_bind m f = io_bind m g.
Proof.
  intros H. destruct m as [tr [a|e]]; simpl; [|reflexivity]. now rewrite H.
Qed.

Lemma io_bind_ret {A B : Type} (a : A) (k : A -> io B) :
  io_bind (io_ret a) k = k a.
Proof. unfold io_bind, io_ret. now destruct (k a). Qed.

(** [main] is its prelude, then the resolution and the call of [speak]. *)
Lemma main_prelude (w : world) :
  main w
  = io_bind (prelude w) (fun go =>
      match go with
      | None => io_ret tt
      | Some (event, config) =>
          message <~ io_lift (resolve_message w event config) ;;
          if truthy message then speak w message config else io_ret tt
      end).
Proof.
  unfold main, prelude.
  repeat (rewrite io_bind_assoc; apply io_bind_ext; intros ?).
  destruct (negb (truthy a3)); now rewrite io_bind_ret.
Qed.

Lemma print_stderr_cases (w : world) (prefix : str) (e : exc_class) :
  print_stderr w prefix e = ([Stderr prefix e], Ok tt) \/
  exists e', print_stderr w prefix e = ([], Raise e').
Proof.
  unfold print_stderr. destruct (stderr_write w prefix e) as [[]|e'].
  - now left.
  - right. now exists e'.
Qed.

(** [load_config] does nothing but print. *)
Lemma load_config_prints_only (w : world) (a : action) :
  In a (fst (load_config w)) -> exists prefix e, a = Stderr prefix e.
Proof.
  unfold load_config, io_try_except, io_lift.
  destruct (config_file w) as [c|e]; [intros []|].
  destruct (caught _ e); [|intros []].
  destruct (print_stderr_cases w (py "Config error, using defaults: ") e)
    as [->|[e' ->]]; cbn.
  - intros [<-|[]]. eauto.
  - intros [].
Qed.

Lemma load_config_silent (w : world) : ~ speaks (fst (load_config w)).
Proof.
  intros H. apply load_config_prints_only in H.
  destruct H as [prefix [e H]]. discriminate H.
Qed.

Lemma debug_log_silent (w : world) (event : json) :
  ~ speaks (fst (_debug_log w event)).
Proof.
  unfold _debug_log, speaks.
  destruct (debug_log w) as [u|e]; simpl.
  - intros [H|[]]. discriminate H.
  - destruct e; simpl; tauto.
Qed.

Lemma speaks_bind {A B : Type} (m : io A) (k : A -> io B) :
  speaks (fst (io_bind m k)) ->
  speaks (fst m) \/ exists a, snd m = Ok a /\ speaks (fst (k a)).
Proof.
  unfold speaks. destruct m as [tr [a|e]]; simpl; [|tauto].
  destruct (k a) as [tr' r] eqn:E. simpl. intros H.
  apply in_app_or in H. destruct H as [H|H]; [now left|].
  right. exists a. rewrite E. now split.
Qed.

(** Nothing before the resolution asks for the audio file. *)
Lemma prelude_silent (w : world) : ~ speaks (fst (prelude w)).
Proof.
  unfold prelude. intros H.
  apply speaks_bind in H. destruct H as [H|[event [_ H]]].
  { destruct (stdin w) as [| |v]; exact H. }
  apply speaks_bind in H. destruct H as [H|[config [_ H]]].
  { exact (load_config_silent w H). }
  apply speaks_bind in H. destruct H as [H|[debug [_ H]]].
  { destruct (get config _ _); exact H. }
  apply speaks_bind in H. destruct H as [H|[u [_ H]]].
  { destruct (truthy debug); [exact (debug_log_silent w event H) | exact H]. }
  apply speaks_bind in H. destruct H as [H|[enabled [_ H]]].
  { destruct (get config _ _); exact H. }
  destruct (negb (truthy enabled)); exact H.
Qed.

(** [speak] asks for the audio file first. *)
Lemma speak_speaks (w : world) (message config : json) :
  speaks (fst (speak w message config)).
Proof.
  unfold speak, _generate_and_play, speaks, io_act.
  cbn [io_bind]. destruct (io_bind _ _) as [tr r]. now left.
Qed.

(** A run that speaks: the diagnostic of the absent configuration file,
    then the synthesis, the four MCI commands and the removal of the
    audio file. *)
Example main_prompt_run :
  main prompt_world
  = ([ Stderr (py "Config error, using defaults: ") FileNotFoundError;
       CreateTemp;
       Synthesize (JStr (py "On it.")) (JStr (py "en-US-GuyNeural"))
                  (JStr (py "+0%")) (JStr (py "+0%")) (JStr (py "+0Hz"))
                  (py "tmp.mp3");
       Mci (py "Close All");
       Mci (py "Open " ++ quote ++ py "tmp.mp3" ++ quote
            ++ py " Type MPEGVideo Alias voice_notif");
       Mci (py "Play voice_notif Wait");
       Mci (py "Close voice_notif");
       Unlink (py "tmp.mp3") ], Ok tt).
Proof. reflexivity. Qed.

(** ** The message resolver: when it returns *)


(** A transcript line that decodes to a list has no [get]: the
    [AttributeError] is not among the classes [_extract_summary] catches. *)
Example resolve_message_raises_on_list_line :
  resolve_message (with_transcript quiet [Decodes (JArr [])])
                  (stop_event [(py "transcript_path", JStr (py "t.jsonl"))])
                  (JObj [])
  = Raise AttributeError.
Proof. reflexivity. Qed.





(** A scan over shaped data keeps a string, or ends on a missing [text]. *)
Lemma scan_block_shaped (last_text : str) (block : json) :
  block_shaped block = true ->
  (exists t, scan_block (JStr last_text) block = Ok (JStr t))
  \/ scan_block (JStr last_text) block = Raise KeyError.
Proof.
  destruct block; try discriminate. simpl. intros H. unfold scan_block.
  cbn [get bind].
  destruct (lookup (py "type") items) as [ty|].
  - destruct (eq_str ty (py "text")).
    + unfold subscript. unfold str_or_absent in H.
      destruct (lookup (py "text") items) as [[]|]; try discriminate.
      * left. now exists s.
      * now right.
    + left. now exists last_text.
  - left. now exists last_text.
Qed.

Lemma for_each_scan_block (blocks : list json) (last_text : str) :
  forallb block_shaped blocks = true ->
  (exists t, for_each scan_block (JStr last_text) blocks = Ok (JStr t))
  \/ for_each scan_block (JStr last_text) blocks = Raise KeyError.
Proof.
  revert last_text. induction blocks as [|block blocks IH]; intros last_text; simpl.
  - intros _. left. now exists last_text.
  - rewrite andb_true_iff. intros [Hb Hrest].
    destruct (scan_block_shaped last_text block Hb) as [[t ->]| ->]; simpl.
    + now apply IH.
    + now right.
Qed.

Lemma scan_line_shaped (last_text : str) (line : text) :
  line_shaped line = true ->
  (exists t, scan_line (JStr last_text) line = Ok (JStr t))
  \/ scan_line (JStr last_text) line = Raise KeyError
  \/ scan_line (JStr last_text) line = Raise JSONDecodeError.
Proof.
  destruct line as [|e|entry]; simpl.
  - intros _. left. now exists last_text.
  - intros H. destruct e; try discriminate H. right. now right.
  - destruct entry; try discriminate. cbn [get bind].
    destruct (lookup (py "type") items) as [ty|];
      [|intros _; left; now exists last_text].
    destruct (eq_str ty (py "assistant")); [|intros _; left; now exists last_text].
    destruct (lookup (py "message") items) as [[]|]; try discriminate.
    + cbn [get bind].
      destruct (lookup (py "content") items0) as [[]|]; try discriminate.
      * cbn [iterate bind]. intros H.
        destruct (for_each_scan_block elems last_text H) as [H'|H']; tauto.
      * intros _. left. now exists last_text.
    + intros _. left. now exists last_text.
Qed.


Lemma last_line_snippet_returns (last_text : str) :
  exists s, last_line_snippet (JStr last_text) = Ok s.
Proof.
  unfold last_line_snippet. destruct (negb (truthy (JStr last_text))).
  - now exists [].
  - cbn [strip bind].
    match goal with |- context [if ?c then _ else _] => destruct c end;
      eexists; reflexivity.
Qed.






(** An event that reads no transcript resolves whatever the files of the
    world hold: here [t.jsonl] holds a line that is no object. *)
Example resolve_beside_unshaped_transcript :
  resolve_message (with_transcript quiet [Decodes (JArr [])])
    (JObj [ (py "hook_event_name", JStr (py "Stop"));
            (py "transcript_summary", JStr (py "All done")) ]) (JObj [])
  = Ok (JStr (py "Done. All done")).
Proof. reflexivity. Qed.

(** A line that holds an integer of too many digits makes [json.loads]
    raise [ValueError], which [_extract_summary] does not catch. *)
Example resolve_message_raises_on_long_integer :
  resolve_message (with_transcript quiet [Raises ValueError])
                  (stop_event [(py "transcript_path", JStr (py "t.jsonl"))])
                  (JObj [])
  = Raise ValueError.
Proof. reflexivity. Qed.

Example resolve_stop_from_transcript :
  resolve_message two_line_world (JObj stop_with_transcript) (JObj [])
  = Ok (JStr (py "Done. Line two?")).
Proof. reflexivity. Qed.

(** The resolutions the specification lists. *)
Example resolve_prompt_submit :
  resolve_message quiet prompt_event DEFAULT_CONFIG = Ok (JStr (py "On it.")).
Proof. reflexivity. Qed.

Example resolve_stop_active :
  resolve_message quiet (stop_event [(py "stop_hook_active", JBool true)])
                  DEFAULT_CONFIG
  = Ok JNull.
Proof. reflexivity. Qed.

Example resolve_stop_summary :
  resolve_message quiet
    (stop_event [(py "transcript_summary", JStr (py "All done"))]) DEFAULT_CONFIG
  = Ok (JStr (py "Done. All done")).
Proof. reflexivity. Qed.

Example resolve_idle_prompt :
  resolve_message quiet (idle_prompt_event []) DEFAULT_CONFIG
  = Ok (JStr (py "Waiting for your input.")).
Proof. reflexivity. Qed.

Example resolve_unknown_notification :
  resolve_message quiet
    (notification_event [ (py "notification_type", JStr (py "unknown_xyz"));
                          (py "message", JStr (py "hi")) ])
    DEFAULT_CONFIG
  = Ok (JStr (py "hi")).
Proof. reflexivity. Qed.

Example resolve_other_kind :
  resolve_message quiet
    (JObj [(py "hook_event_name", JStr (py "SessionStart"))]) DEFAULT_CONFIG
  = Ok JNull.
Proof. reflexivity. Qed.

(** * Further properties *)

(** ** Length capping, at any maximum *)

Lemma truncate_len_le (text : str) (max_len : Z) :
  0 <= max_len -> Py.len (_truncate text max_len) <= max_len + 1.
Proof.
  intros Hm. unfold _truncate.
  destruct (Z.leb_spec (Py.len text) max_len) as [Hle|Hgt]; [lia|].
  pose proof (slice_to_len text max_len Hm) as Hcut.
  destruct (Py.rfind (Py.slice_to text max_len) (py ".") >? max_len / 2).
  - pose proof (prefix_of_len _ _
      (slice_to_prefix (Py.slice_to text max_len)
         (Py.rfind (Py.slice_to text max_len) (py ".") + 1))).
    lia.
  - rewrite len_app. pose proof (rstrip_len (Py.slice_to text max_len)).
    change (Py.len (py ".")) with 1. lia.
Qed.

(** Where [rfind] finds a character, the character stands. *)
Lemma rfind_from_hit (c : Py.char) (s : str) (i : Z) :
  0 <= i ->
  Py.rfind_from i s [c] = -1 \/
  exists a b, s = a ++ c :: b /\ Py.len a = Py.rfind_from i s [c] - i.
Proof.
  revert i. induction s as [|d s IH]; intros i Hi.
  - now left.
  - cbn [Py.rfind_from].
    destruct (IH (i + 1)) as [Hnone|[a [b [Hs Hlen]]]]; [lia| |].
    + rewrite Hnone. cbn [Z.leb]. simpl Py.startswith.
      destruct (N.eqb_spec c d) as [->|_]; [|now left].
      right. exists [], s. split; [reflexivity|]. unfold Py.len. simpl. lia.
    + pose proof (len_nonneg a).
      destruct (Z.leb_spec 0 (Py.rfind_from (i + 1) s [c])); [|lia].
      right. exists (d :: a), b. split; [now rewrite Hs|].
      unfold Py.len in *. simpl List.length. lia.
Qed.

Lemma firstn_app_exact {A : Type} (a b : list A) :
  firstn (List.length a) (a ++ b) = a.
Proof.
  rewrite firstn_app, Nat.sub_diag, firstn_all. simpl. apply app_nil_r.
Qed.

Lemma prefix_same_len (p s : str) :
  Py.prefix_of p s -> Py.len s <= Py.len p -> p = s.
Proof.
  intros [t ->] H. rewrite len_app in H. destruct t as [|c t].
  - now rewrite app_nil_r.
  - unfold Py.len in H. simpl in H. lia.
Qed.

(** What capping shortened ends in a period. *)
Lemma truncate_ends_in_period (text : str) (max_len : Z) :
  0 <= max_len -> Py.len text > max_len ->
  exists body, _truncate text max_len = body ++ [Py.period].
Proof.
  intros Hm Hlen. unfold _truncate.
  destruct (Z.leb_spec (Py.len text) max_len) as [Hle|_]; [lia|].
  set (cut := Py.slice_to text max_len).
  destruct (Z.gtb_spec (Py.rfind cut (py ".")) (max_len / 2)) as [Hgt|_].
  - assert (0 <= max_len / 2) by (apply Z.div_pos; lia).
    change (py ".") with [Py.period] in *. unfold Py.rfind in *.
    destruct (rfind_from_hit Py.period cut 0) as [Hnone|[a [b [Hcut Ha]]]];
      [lia | lia |].
    exists a. rewrite slice_to_nonneg by lia.
    remember (Py.rfind_from 0 cut [Py.period]) as r eqn:Hr. clear Hr.
    replace (Z.to_nat (r + 1)) with (List.length (a ++ [Py.period])).
    + rewrite Hcut. change (a ++ Py.period :: b) with (a ++ [Py.period] ++ b).
      rewrite app_assoc. apply firstn_app_exact.
    + rewrite length_app. unfold Py.len in Ha. simpl. lia.
  - now exists (Py.rstrip cut).
Qed.

(** Capping what was capped changes nothing. *)
Lemma truncate_twice (text : str) (max_len : Z) :
  0 <= max_len ->
  _truncate (_truncate text max_len) max_len = _truncate text max_len.
Proof.
  intros Hm. unfold _truncate at 2 3.
  destruct (Z.leb_spec (Py.len text) max_len) as [Hle|Hgt].
  { now apply truncate_within. }
  set (cut := Py.slice_to text max_len).
  pose proof (slice_to_len text max_len Hm) as Hcut. fold cut in Hcut.
  destruct (Py.rfind cut (py ".") >? max_len / 2) eqn:Hp.
  - apply truncate_within.
    pose proof (prefix_of_len _ _ (slice_to_prefix cut (Py.rfind cut (py ".") + 1))).
    lia.
  - pose proof (rstrip_len cut) as Hr.
    destruct (Z.lt_ge_cases (Py.len (Py.rstrip cut)) max_len) as [Hshort|Hfull].
    + apply truncate_within. rewrite len_app. change (Py.len (py ".")) with 1. lia.
    + assert (Hsame : Py.rstrip cut = cut).
      { apply prefix_same_len; [apply rstrip_prefix | lia]. }
      rewrite Hsame. unfold _truncate.
      destruct (Z.leb_spec (Py.len (cut ++ py ".")) max_len) as [Hle|_].
      { rewrite len_app in Hle. change (Py.len (py ".")) with 1 in Hle.
        rewrite Hsame in Hfull. lia. }
      assert (Hcut' : Py.slice_to (cut ++ py ".") max_len = cut).
      { rewrite slice_to_nonneg by lia.
        replace (Z.to_nat max_len) with (List.length cut).
        - apply firstn_app_exact.
        - rewrite Hsame in Hfull. unfold Py.len in *. lia. }
      rewrite Hcut', Hp, Hsame. reflexivity.
Qed.

(** X1. For every text and every maximum length that is not negative,
    what length capping returns has at most one character more than the
    maximum. *)
Theorem truncate_at_most_max_plus_one (text : str) (max_len : Z) :
  0 <= max_len -> Py.len (_truncate text max_len) <= max_len + 1.
Proof. apply truncate_len_le. Qed.

Lemma truncate_at_most_max_plus_one_witness :
  0 <= 8 /\ Py.len (_truncate (py "One two three four") 8) <= 8 + 1.
Proof.
  split; [lia|]. apply (truncate_at_most_max_plus_one (py "One two three four") 8).
  lia.
Defined.

(** X2. For a maximum length that is not negative, a text longer than the
    maximum is capped to a text that ends in a period. *)
Theorem truncate_long_ends_in_period (text : str) (max_len : Z) :
  0 <= max_len -> Py.len text > max_len ->
  exists body, _truncate text max_len = body ++ [Py.period].
Proof. apply truncate_ends_in_period. Qed.

Lemma truncate_long_ends_in_period_witness :
  0 <= 12 /\ Py.len (py "One two. Three four") > 12 /\
  exists body, _truncate (py "One two. Three four") 12 = body ++ [Py.period].
Proof.
  assert (H : Py.len (py "One two. Three four") > 12) by reflexivity.
  split; [lia|]. split; [exact H|].
  apply (truncate_long_ends_in_period (py "One two. Three four") 12); [lia | exact H].
Defined.

(** X3. For a maximum length that is not negative, length capping is
    idempotent: capping a capped text returns it unchanged. *)
Theorem truncate_idempotent (text : str) (max_len : Z) :
  0 <= max_len ->
  _truncate (_truncate text max_len) max_len = _truncate text max_len.
Proof. apply truncate_twice. Qed.

Lemma truncate_idempotent_witness :
  0 <= 8 /\
  _truncate (_truncate (py "One two three four") 8) 8
  = _truncate (py "One two three four") 8.
Proof.
  split; [lia|]. apply (truncate_idempotent (py "One two three four") 8). lia.
Defined.

(** ** The transcript summarizer *)

Lemma last_line_snippet_len (last_text : json) (s : str) :
  last_line_snippet last_text = Ok s -> Py.len s <= 150.
Proof.
  unfold last_line_snippet. destruct (negb (truthy last_text)).
  - intros H. injection H as <-. unfold Py.len. simpl. lia.
  - destruct (strip last_text) as [stripped|e]; cbn [bind]; [|discriminate].
    match goal with |- context [Py.find ?x ?y] => set (period := Py.find x y) end.
    match goal with |- context [Py.slice_to ?x (period + 1)] => set (snippet := x) end.
    destruct (Z.ltb_spec 0 period) as [Hpos|Hnot]; cbn [andb].
    + destruct (Z.ltb_spec period 150) as [Hlt|Hge]; intros H; injection H as <-.
      * pose proof (slice_to_len snippet (period + 1)). lia.
      * apply slice_to_len. lia.
    + intros H. injection H as <-. apply slice_to_len. lia.
Qed.

Lemma extract_summary_len (w : world) (path : json) (s : str) :
  _extract_summary w path = Ok s -> Py.len s <= 150.
Proof.
  unfold _extract_summary, try_except.
  match goal with |- context [match ?r with Ok _ => _ | Raise _ => _ end] =>
    destruct r as [s'|e] eqn:E
  end.
  - intros H. injection H as <-.
    destruct (transcript w path) as [lines|e]; cbn [bind] in E; [|discriminate].
    destruct (for_each scan_line (JStr []) lines) as [last_text|e];
      cbn [bind] in E; [|discriminate].
    now apply (last_line_snippet_len last_text).
  - destruct (caught _ e); intros H; [|discriminate].
    injection H as <-. unfold Py.len. simpl. lia.
Qed.

(** X4. A summary that [_extract_summary] returns has at most 150
    characters, whatever the transcript holds. *)
Theorem extract_summary_at_most_150 (w : world) (path : json) (s : str) :
  _extract_summary w path = Ok s -> Py.len s <= 150.
Proof. apply extract_summary_len. Qed.

Lemma extract_summary_at_most_150_witness :
  _extract_summary two_line_world (JStr (py "t.jsonl")) = Ok (py "Line two?") /\
  Py.len (py "Line two?") <= 150.
Proof.
  split; [reflexivity|].
  apply (extract_summary_at_most_150 two_line_world (JStr (py "t.jsonl"))).
  reflexivity.
Defined.

(** X5. [_extract_summary] never raises an [OSError], a [JSONDecodeError]
    or a [KeyError], nor an exception of a subclass of these
    ([FileNotFoundError], [PermissionError]): whatever it raises is of
    another class. *)
Theorem extract_summary_raises_no_caught_class
    (w : world) (path : json) (e : exc_class) :
  _extract_summary w path = Raise e ->
  issubclass e OSError = false /\ issubclass e JSONDecodeError = false /\
  issubclass e KeyError = false.
Proof.
  unfold _extract_summary, try_except.
  match goal with |- context [match ?r with Ok _ => _ | Raise _ => _ end] =>
    destruct r as [s'|e']
  end; [discriminate|].
  destruct (caught _ e') eqn:C; [discriminate|].
  intros H. injection H as <-. unfold caught in C. cbn [existsb] in C.
  rewrite !orb_false_iff in C. tauto.
Qed.

Lemma extract_summary_raises_no_caught_class_witness :
  _extract_summary (with_transcript quiet [Decodes (JArr [])]) (JStr (py "t.jsonl"))
  = Raise AttributeError /\
  issubclass AttributeError OSError = false /\
  issubclass AttributeError JSONDecodeError = false /\
  issubclass AttributeError KeyError = false.
Proof.
  split; [reflexivity|].
  apply (extract_summary_raises_no_caught_class
           (with_transcript quiet [Decodes (JArr [])]) (JStr (py "t.jsonl"))).
  reflexivity.
Defined.

Lemma for_each_app {A St : Type} (body : St -> A -> result St) (s : St)
    (xs ys : list A) :
  for_each body s (xs ++ ys)
  = (s' <- for_each body s xs ;; for_each body s' ys).
Proof.
  revert s. induction xs as [|x xs IH]; intros s; simpl; [reflexivity|].
  destruct (body s x) as [s'|e]; simpl; [apply IH | reflexivity].
Qed.

(** A malformed line among shaped lines ends the scan with an exception
    that [_extract_summary] catches. *)
Lemma scan_malformed (lines : list text) (last_text : str) :
  forallb line_shaped lines = true -> In Malformed lines ->
  for_each scan_line (JStr last_text) lines = Raise KeyError \/
  for_each scan_line (JStr last_text) lines = Raise JSONDecodeError.
Proof.
  revert last_text. induction lines as [|line lines IH]; intros last_text; simpl.
  - intros _ [].
  - rewrite andb_true_iff. intros [Hl Hrest] [->|Hin].
    + now right.
    + destruct (scan_line_shaped last_text line Hl) as [[t ->]|[-> | ->]]; simpl.
      * now apply IH.
      * now left.
      * now right.
Qed.

(** X6. One line on which [json.loads] raises [JSONDecodeError],
    anywhere in a transcript whose other lines have the documented shape
    (none makes [json.loads] raise anything else), makes
    [_extract_summary] return the empty string, whatever the assistant
    records before and after it say. *)
Theorem extract_summary_malformed_line_empties
    (w : world) (path : json) (lines : list text) :
  transcript w path = Ok lines ->
  forallb line_shaped lines = true ->
  In Malformed lines ->
  _extract_summary w path = Ok [].
Proof.
  intros Ht Hs Hin. unfold _extract_summary. rewrite Ht. cbn [bind].
  destruct (scan_malformed lines [] Hs Hin) as [-> | ->]; reflexivity.
Qed.

Lemma extract_summary_malformed_line_empties_witness :
  _extract_summary
    (with_transcript quiet [assistant_says (py "Half way."); Malformed;
                            assistant_says (py "All done.")])
    (JStr (py "t.jsonl"))
  = Ok [].
Proof.
  apply (extract_summary_malformed_line_empties
           (with_transcript quiet [assistant_says (py "Half way."); Malformed;
                                   assistant_says (py "All done.")])
           (JStr (py "t.jsonl"))
           [assistant_says (py "Half way."); Malformed;
            assistant_says (py "All done.")]).
  - reflexivity.
  - reflexivity.
  - right. left. reflexivity.
Defined.

(** X7. The last assistant text wins: when the scan of the earlier lines
    runs to its end, the summary of a transcript that ends on an assistant
    record of one text block is computed from that block's text alone. *)
Theorem extract_summary_last_text_wins
    (w : world) (path : json) (lines : list text) (said : str) :
  transcript w path = Ok (lines ++ [assistant_says said]) ->
  scan_completes lines ->
  _extract_summary w path = last_line_snippet (JStr said).
Proof.
  intros Ht [last_text Hscan]. unfold _extract_summary.
  rewrite Ht. cbn [bind]. rewrite for_each_app, Hscan. cbn [bind].
  assert (Hlast : for_each scan_line last_text [assistant_says said] = Ok (JStr said))
    by reflexivity.
  rewrite Hlast. cbn [bind].
  destruct (last_line_snippet_returns said) as [s ->]. reflexivity.
Qed.

Lemma extract_summary_last_text_wins_witness :
  _extract_summary
    (with_transcript quiet [assistant_says (py "Half way."); Blank;
                            assistant_says (py "All done.")])
    (JStr (py "t.jsonl"))
  = last_line_snippet (JStr (py "All done.")).
Proof.
  apply (extract_summary_last_text_wins
           (with_transcript quiet [assistant_says (py "Half way."); Blank;
                                   assistant_says (py "All done.")])
           (JStr (py "t.jsonl"))
           [assistant_says (py "Half way."); Blank] (py "All done.")).
  - reflexivity.
  - exists (JStr (py "Half way.")). reflexivity.
Defined.

(** ** The message resolver *)

Lemma bind_Ok {A B : Type} (r : result A) (k : A -> result B) (b : B) :
  bind r k = Ok b -> exists a, r = Ok a /\ k a = Ok b.
Proof. destruct r as [a|e]; simpl; [eauto | discriminate]. Qed.

Lemma eq_str_true (v : json) (s : str) : eq_str v s = true -> v = JStr s.
Proof.
  destruct v; try discriminate. simpl. intros H. apply eqb_eq in H. now subst.
Qed.

(** The kinds are distinct strings. *)
Lemma kind_stop (kind : json) :
  eq_str kind (py "Stop") = true ->
  eq_str kind (py "UserPromptSubmit") = false.
Proof. intros H. apply eq_str_true in H. now subst. Qed.

Lemma kind_notification (kind : json) :
  eq_str kind (py "Notification") = true ->
  eq_str kind (py "UserPromptSubmit") = false /\
  eq_str kind (py "Stop") = false.
Proof. intros H. apply eq_str_true in H. now subst. Qed.

Lemma capped_truncate (t : str) : capped (JStr (_truncate t MAX_MESSAGE_LENGTH)).
Proof.
  right. eexists. split; [reflexivity|].
  pose proof (truncate_len_le t MAX_MESSAGE_LENGTH). unfold MAX_MESSAGE_LENGTH in *.
  lia.
Qed.

Lemma resolve_stop_capped (w : world) (event : list (str * json)) (config r : json) :
  eq_str (event_kind event) (py "Stop") = true ->
  resolve_message w (JObj event) config = Ok r -> capped r.
Proof.
  intros Hk. unfold resolve_message. cbn [get bind]. fold (event_kind event).
  rewrite (kind_stop _ Hk), Hk.
  destruct (get config (py "messages") DEFAULT_MESSAGES) as [messages|e];
    cbn [bind]; [|discriminate].
  match goal with |- context [truthy ?a] => destruct (truthy a) end.
  { intros H. injection H as <-. now left. }
  intros H.
  apply bind_Ok in H. destruct H as [template [_ H]].
  apply bind_Ok in H. destruct H as [summary [_ H]].
  apply bind_Ok in H. destruct H as [text [_ H]].
  injection H as <-. apply capped_truncate.
Qed.

Lemma resolve_notification_capped (w : world) (event : list (str * json))
    (config r : json) :
  eq_str (event_kind event) (py "Notification") = true ->
  resolve_message w (JObj event) config = Ok r -> capped r.
Proof.
  intros Hk. unfold resolve_message. cbn [get bind]. fold (event_kind event).
  destruct (kind_notification _ Hk) as [-> ->]. rewrite Hk.
  destruct (get config (py "messages") DEFAULT_MESSAGES) as [messages|e];
    cbn [bind]; [|discriminate].
  intros H.
  apply bind_Ok in H. destruct H as [fallback [_ H]].
  apply bind_Ok in H. destruct H as [template [_ H]].
  apply bind_Ok in H. destruct H as [text [_ H]].
  injection H as <-. apply capped_truncate.
Qed.

(** X8. For a Stop or a Notification event, whatever the event, the
    configuration and the transcript hold, a value [resolve_message]
    returns is [None] or a string of at most 201 characters. *)
Theorem resolve_stop_notification_capped
    (w : world) (event : list (str * json)) (config r : json) :
  eq_str (event_kind event) (py "Stop")
  || eq_str (event_kind event) (py "Notification") = true ->
  resolve_message w (JObj event) config = Ok r ->
  r = JNull \/ exists s, r = JStr s /\ Py.len s <= 201.
Proof.
  intros Hk. apply orb_true_iff in Hk. destruct Hk as [Hk|Hk].
  - now apply resolve_stop_capped.
  - now apply resolve_notification_capped.
Qed.

Lemma resolve_stop_notification_capped_witness :
  JStr (py "Done. Line two?") = JNull \/
  exists s, JStr (py "Done. Line two?") = JStr s /\ Py.len s <= 201.
Proof.
  apply (resolve_stop_notification_capped two_line_world stop_with_transcript
           (JObj []) (JStr (py "Done. Line two?"))); reflexivity.
Defined.

(** X9. The event's own summary comes first: for a Stop event whose
    [transcript_summary] is true as a condition, what [resolve_message]
    does is the same in every world, so no transcript is read. *)
Theorem resolve_stop_summary_first
    (w w' : world) (event : list (str * json)) (config summary : json) :
  eq_str (event_kind event) (py "Stop") = true ->
  lookup (py "transcript_summary") event = Some summary ->
  truthy summary = true ->
  resolve_message w (JObj event) config = resolve_message w' (JObj event) config.
Proof.
  intros Hk Hs Ht. unfold resolve_message. cbn [get bind].
  fold (event_kind event). rewrite (kind_stop _ Hk), Hk, Hs, Ht. reflexivity.
Qed.

Lemma resolve_stop_summary_first_witness :
  resolve_message quiet
    (JObj [ (py "hook_event_name", JStr (py "Stop"));
            (py "transcript_summary", JStr (py "All done"));
            (py "transcript_path", JStr (py "t.jsonl")) ]) DEFAULT_CONFIG
  = resolve_message two_line_world
      (JObj [ (py "hook_event_name", JStr (py "Stop"));
              (py "transcript_summary", JStr (py "All done"));
              (py "transcript_path", JStr (py "t.jsonl")) ]) DEFAULT_CONFIG.
Proof.
  apply (resolve_stop_summary_first quiet two_line_world
           [ (py "hook_event_name", JStr (py "Stop"));
             (py "transcript_summary", JStr (py "All done"));
             (py "transcript_path", JStr (py "t.jsonl")) ]
           DEFAULT_CONFIG (JStr (py "All done"))); reflexivity.
Defined.

Lemma replace_done_summary (s : str) :
  Py.replace (py "Done. {summary}") (py "{summary}") s = py "Done. " ++ s.
Proof.
  change (py "Done. {summary}") with (Py.join (py "{summary}") [py "Done. "; []]).
  change (py "{summary}") with (123%N :: py "summary}").
  rewrite replace_join.
  - simpl. now rewrite app_nil_r.
  - intros H. simpl in H. intuition discriminate.
  - repeat constructor; apply occursb_false; reflexivity.
Qed.

(** X10. Under the built-in templates, a Stop event without summary of
    its own resolves to [Done. ] followed by the summary of its
    transcript, whole: the length cap never cuts it. When the transcript
    gives no summary, it resolves to [Done.]. *)
Theorem resolve_stop_default_from_transcript
    (w : world) (event config : list (str * json)) (path : json) (s : str) :
  eq_str (event_kind event) (py "Stop") = true ->
  lookup (py "stop_hook_active") event = None ->
  lookup (py "transcript_summary") event = None ->
  lookup (py "transcript_path") event = Some path ->
  truthy path = true ->
  lookup (py "messages") config = None ->
  _extract_summary w path = Ok s ->
  resolve_message w (JObj event) (JObj config)
  = Ok (JStr (match s with
              | [] => py "Done."
              | _ :: _ => py "Done. " ++ s
              end)).
Proof.
  intros Hk Ha Hs Hp Ht Hm He. unfold resolve_message. cbn [get bind].
  fold (event_kind event). rewrite (kind_stop _ Hk), Hk, Ha, Hs, Hp, Hm.
  change (get DEFAULT_MESSAGES (py "stop") (JStr (py "Done. {summary}")))
    with (Ok (JStr (py "Done. {summary}"))).
  cbn [truthy negb bind]. rewrite Ht, He. cbn [bind].
  pose proof (extract_summary_len w path s He) as Hlen.
  destruct s as [|c s].
  - reflexivity.
  - cbn [truthy negb replace bind].
    rewrite replace_done_summary. do 2 f_equal.
    apply truncate_within. rewrite len_app.
    change (Py.len (py "Done. ")) with 6. unfold MAX_MESSAGE_LENGTH. lia.
Qed.

Lemma resolve_stop_default_from_transcript_witness :
  resolve_message two_line_world (JObj stop_with_transcript) (JObj [])
  = Ok (JStr (py "Done. " ++ py "Line two?")).
Proof.
  apply (resolve_stop_default_from_transcript two_line_world stop_with_transcript
           [] (JStr (py "t.jsonl")) (py "Line two?")); reflexivity.
Defined.

(** X11. For an event mapping of a kind without rule, and for a Stop
    event whose [stop_hook_active] is true as a condition,
    [resolve_message] returns [None] under every configuration mapping,
    also one whose [messages] is not a mapping of templates. *)
Theorem resolve_none_without_templates
    (w : world) (event config : list (str * json)) :
  recognized (event_kind event) = false \/
  (eq_str (event_kind event) (py "Stop") = true /\
   truthy (stop_hook_active event) = true) ->
  resolve_message w (JObj event) (JObj config) = Ok JNull.
Proof.
  unfold resolve_message, recognized. cbn [get bind]. fold (event_kind event).
  fold (stop_hook_active event). intros [H|[Hk Ha]].
  - rewrite !orb_false_iff in H. destruct H as [[-> ->] ->]. reflexivity.
  - now rewrite (kind_stop _ Hk), Hk, Ha.
Qed.

Lemma resolve_none_without_templates_witness :
  resolve_message quiet
    (JObj [ (py "hook_event_name", JStr (py "Stop"));
            (py "stop_hook_active", JBool true) ])
    (JObj [ (py "messages", JInt 7) ])
  = Ok JNull.
Proof.
  apply (resolve_none_without_templates quiet
           [ (py "hook_event_name", JStr (py "Stop"));
             (py "stop_hook_active", JBool true) ]
           [ (py "messages", JInt 7) ]).
  right. split; reflexivity.
Defined.

(** ** Playback *)

Lemma play_mp3_trace (w : world) (path : str) :
  play_mp3 w path
  = (map Mci (sent_until_error (mciSendString w) (play_commands path)),
     if forallb (fun command => mciSendString w command =? 0) (play_commands path)
     then Ok tt else Raise RuntimeError).
Proof.
  unfold play_mp3, _mci, play_commands.
  cbn [sent_until_error forallb map io_bind io_act].
  repeat match goal with
         | |- context [mciSendString w ?c =? 0] =>
             destruct (mciSendString w c =? 0); cbn
         end; reflexivity.
Qed.

(** X12. [play_mp3] sends its four commands in order and stops at the
    first one MCI answers with an error code; it returns when all four
    succeed and raises [RuntimeError] otherwise, so nothing is played
    unless the file was opened. *)
Theorem play_mp3_stops_at_first_error (w : world) (path : str) :
  play_mp3 w path
  = (map Mci (sent_until_error (mciSendString w) (play_commands path)),
     if forallb (fun command => mciSendString w command =? 0) (play_commands path)
     then Ok tt else Raise RuntimeError).
Proof. apply play_mp3_trace. Qed.

(** ** Speech *)

Lemma fst_io_bind {A B : Type} (m : io A) (k : A -> io B) :
  fst (io_bind m k)
  = fst m ++ match snd m with
             | Ok a => fst (k a)
             | Raise _ => []
             end.
Proof.
  destruct m as [tr [a|e]]; simpl.
  - now destruct (k a).
  - now rewrite app_nil_r.
Qed.

Lemma in_io_bind {A B : Type} (m : io A) (k : A -> io B) (a : action) :
  In a (fst (io_bind m k)) ->
  In a (fst m) \/ exists x, snd m = Ok x /\ In a (fst (k x)).
Proof.
  rewrite fst_io_bind. intros H. apply in_app_or in H. destruct H as [H|H].
  - now left.
  - destruct (snd m) as [x|e]; [|destruct H]. right. now exists x.
Qed.

(** The [finally] clause of [_generate_and_play]. *)
Lemma unlink_cleanup (w : world) (path : str) :
  io_try_except (_ <~ io_act (Unlink path) ;; io_lift (unlink w path))
    [OSError] (fun _ => io_ret tt)
  = ([Unlink path],
     match unlink w path with
     | Ok _ => Ok tt
     | Raise e => if issubclass e OSError then Ok tt else Raise e
     end).
Proof.
  unfold io_try_except, io_act, io_lift, io_bind, caught. cbn [existsb].
  destruct (unlink w path) as [[]|e]; [reflexivity|].
  rewrite orb_false_r. destruct (issubclass e OSError); reflexivity.
Qed.

Lemma fst_io_try_finally {A : Type} (m : io A) (cleanup : io unit) :
  fst (io_try_finally m cleanup) = fst m ++ fst cleanup.
Proof. destruct m as [tr r], cleanup as [tr' [u|e]]; reflexivity. Qed.

Lemma speak_with_tmp (w : world) (message config : json) (path : str) :
  tmp_file w = Ok path ->
  speak w message config
  = io_bind (io_act CreateTemp) (fun _ =>
      io_try_finally (synthesize_and_play w message config path)
        (io_try_except (_ <~ io_act (Unlink path) ;; io_lift (unlink w path))
           [OSError] (fun _ => io_ret tt))).
Proof.
  intros H. unfold speak, _generate_and_play. rewrite H.
  unfold io_lift at 1. cbn [io_bind].
  match goal with |- context [io_try_finally ?b ?c] =>
    destruct (io_try_finally b c) as [tr r] eqn:E
  end.
  unfold synthesize_and_play. rewrite E. reflexivity.
Qed.




Lemma in_try_block (w : world) (message config : json) (path command : str) :
  In (Mci command) (fst (synthesize_and_play w message config path)) ->
  exists voice rate volume pitch,
    get config (py "voice") (JStr (py "en-US-GuyNeural")) = Ok voice /\
    get config (py "rate") (JStr (py "+0%")) = Ok rate /\
    get config (py "volume") (JStr (py "+0%")) = Ok volume /\
    get config (py "pitch") (JStr (py "+0Hz")) = Ok pitch /\
    synthesize w message voice rate volume pitch path = Ok tt /\
    In command (sent_until_error (mciSendString w) (play_commands path)).
Proof.
  unfold synthesize_and_play. intros H.
  apply in_io_bind in H. destruct H as [[]|[voice [Hv H]]].
  apply in_io_bind in H. destruct H as [[]|[rate [Hr H]]].
  apply in_io_bind in H. destruct H as [[]|[volume [Hvo H]]].
  apply in_io_bind in H. destruct H as [[]|[pitch [Hp H]]].
  apply in_io_bind in H. destruct H as [[H|[]]|[u [_ H]]]; [discriminate H|].
  apply in_io_bind in H. destruct H as [[]|[[] [Hs H]]].
  cbn [io_lift snd] in Hv, Hr, Hvo, Hp, Hs.
  rewrite play_mp3_trace in H. cbn [fst] in H.
  apply in_map_iff in H. destruct H as [c [Hc Hin]]. injection Hc as ->.
  now exists voice, rate, volume, pitch.
Qed.

Lemma speak_mci (w : world) (message config : json) (command : str) :
  In (Mci command) (fst (speak w message config)) ->
  exists path voice rate volume pitch,
    tmp_file w = Ok path /\
    get config (py "voice") (JStr (py "en-US-GuyNeural")) = Ok voice /\
    get config (py "rate") (JStr (py "+0%")) = Ok rate /\
    get config (py "volume") (JStr (py "+0%")) = Ok volume /\
    get config (py "pitch") (JStr (py "+0Hz")) = Ok pitch /\
    synthesize w message voice rate volume pitch path = Ok tt /\
    In command (sent_until_error (mciSendString w) (play_commands path)).
Proof.
  destruct (tmp_file w) as [path|e] eqn:Htmp.
  - rewrite (speak_with_tmp w message config path Htmp). intros H.
    apply in_io_bind in H. destruct H as [[H|[]]|[u [_ H]]]; [discriminate H|].
    rewrite fst_io_try_finally, unlink_cleanup in H.
    apply in_app_or in H. destruct H as [H|[H|[]]]; [|discriminate H].
    destruct (in_try_block w message config path command H)
      as [voice [rate [volume [pitch Hs]]]].
    now exists path, voice, rate, volume, pitch.
  - unfold speak, _generate_and_play. rewrite Htmp. cbn.
    intros [H|[]]. discriminate H.
Qed.

(** X14. [speak] sends an MCI command only after the temporary file was
    created and the synthesis of its message into that file, with the
    voice, rate, volume and pitch of its configuration, returned: after a
    synthesis error nothing is played. *)
Theorem speak_plays_only_after_synthesis
    (w : world) (message config : json) (command : str) :
  In (Mci command) (fst (speak w message config)) ->
  exists path voice rate volume pitch,
    tmp_file w = Ok path /\
    get config (py "voice") (JStr (py "en-US-GuyNeural")) = Ok voice /\
    get config (py "rate") (JStr (py "+0%")) = Ok rate /\
    get config (py "volume") (JStr (py "+0%")) = Ok volume /\
    get config (py "pitch") (JStr (py "+0Hz")) = Ok pitch /\
    synthesize w message voice rate volume pitch path = Ok tt.
Proof.
  intros H. apply speak_mci in H.
  destruct H as [path [voice [rate [volume [pitch H]]]]].
  exists path, voice, rate, volume, pitch. tauto.
Qed.

Lemma speak_plays_only_after_synthesis_witness :
  exists path voice rate volume pitch,
    tmp_file prompt_world = Ok path /\
    get DEFAULT_CONFIG (py "voice") (JStr (py "en-US-GuyNeural")) = Ok voice /\
    get DEFAULT_CONFIG (py "rate") (JStr (py "+0%")) = Ok rate /\
    get DEFAULT_CONFIG (py "volume") (JStr (py "+0%")) = Ok volume /\
    get DEFAULT_CONFIG (py "pitch") (JStr (py "+0Hz")) = Ok pitch /\
    synthesize prompt_world (JStr (py "On it.")) voice rate volume pitch path
    = Ok tt.
Proof.
  apply (speak_plays_only_after_synthesis prompt_world (JStr (py "On it."))
           DEFAULT_CONFIG (py "Play voice_notif Wait")).
  vm_compute. tauto.
Defined.

(** X15. A removal of the temporary file that fails with an [OSError]
    is not seen: [speak] acts and ends as it does in the world where the
    removal succeeds. *)
Theorem speak_swallows_unlink_error (w : world) (message config : json) :
  unlink_fails_softly w ->
  speak w message config = speak (with_unlink_ok w) message config.
Proof.
  intros Hsoft. destruct (tmp_file w) as [path|e] eqn:Htmp.
  - rewrite (speak_with_tmp w message config path Htmp).
    rewrite (speak_with_tmp (with_unlink_ok w) message config path Htmp).
    rewrite !unlink_cleanup. specialize (Hsoft path).
    destruct (unlink w path) as [u|e]; [reflexivity|].
    rewrite Hsoft. reflexivity.
  - unfold speak, _generate_and_play. cbn [tmp_file with_unlink_ok].
    now rewrite Htmp.
Qed.

Lemma speak_swallows_unlink_error_witness :
  speak (with_unlink_error prompt_world PermissionError)
        (JStr (py "On it.")) DEFAULT_CONFIG
  = speak (with_unlink_ok (with_unlink_error prompt_world PermissionError))
          (JStr (py "On it.")) DEFAULT_CONFIG.
Proof.
  apply (speak_swallows_unlink_error
           (with_unlink_error prompt_world PermissionError)
           (JStr (py "On it.")) DEFAULT_CONFIG).
  intros path. reflexivity.
Defined.

(** ** The entry point *)

Lemma snd_io_bind {A B : Type} (m : io A) (k : A -> io B) (b : B) :
  snd (io_bind m k) = Ok b -> exists a, snd m = Ok a /\ snd (k a) = Ok b.
Proof.
  destruct m as [tr [a|e]]; simpl; [|discriminate].
  destruct (k a) as [tr' r] eqn:E. simpl. intros ->. exists a. now rewrite E.
Qed.

(** What the prelude went through when it passes. *)
Lemma prelude_passes (w : world) (pre : list action) (event config : json) :
  prelude w = (pre, Ok (Some (event, config))) ->
  (stdin w = Blank /\ event = JObj [] \/ stdin w = Decodes event) /\
  snd (load_config w) = Ok config /\
  exists enabled, get config (py "enabled") (JBool true) = Ok enabled /\
                  truthy enabled = true.
Proof.
  intros H. apply (f_equal snd) in H. cbn [snd] in H. unfold prelude in H.
  apply snd_io_bind in H. destruct H as [event' [He H]].
  apply snd_io_bind in H. destruct H as [config' [Hc H]].
  apply snd_io_bind in H. destruct H as [debug [_ H]].
  apply snd_io_bind in H. destruct H as [u [_ H]].
  apply snd_io_bind in H. destruct H as [enabled [Hen H]].
  cbn [io_lift snd] in He, Hen.
  destruct (truthy enabled) eqn:T; cbn in H; [|discriminate].
  injection H as <- <-. split; [|split].
  - destruct (stdin w) as [| |v]; [left|discriminate|right].
    + injection He as <-. now split.
    + now injection He as <-.
  - exact Hc.
  - now exists enabled.
Qed.

(** A run that speaks passed the prelude and resolved a message. *)
Lemma main_speaks_resolved (w : world) :
  speaks (fst (main w)) ->
  exists pre event config message,
    prelude w = (pre, Ok (Some (event, config))) /\
    resolve_message w event config = Ok message /\
    truthy message = true.
Proof.
  rewrite main_prelude. intros H. apply in_io_bind in H.
  destruct H as [H|[[[event config]|] [Hp H]]].
  - now elim (prelude_silent w).
  - apply in_io_bind in H. cbn [io_lift fst snd] in H.
    destruct H as [[]|[message [Hr H]]].
    destruct (truthy message) eqn:T; [|destruct H].
    exists (fst (prelude w)), event, config, message.
    split; [|now split]. destruct (prelude w) as [pre r]. cbn in *. now subst.
  - destruct H.
Qed.

Lemma resolve_unrecognized (w : world) (event : list (str * json))
    (config r : json) :
  recognized (event_kind event) = false ->
  resolve_message w (JObj event) config = Ok r -> r = JNull.
Proof.
  unfold recognized, resolve_message. rewrite !orb_false_iff.
  intros [[H1 H2] H3]. cbn [get bind]. fold (event_kind event).
  rewrite H1, H2, H3.
  destruct (get config (py "messages") DEFAULT_MESSAGES); cbn [bind];
    congruence.
Qed.

(** X16. The run speaks only for an event mapping of one of the three
    kinds that have a rule: empty or malformed standard input, a JSON
    value that is not a mapping, and an event of another kind are
    silent. *)
Theorem main_speaks_only_for_recognized (w : world) :
  speaks (fst (main w)) ->
  exists event, stdin w = Decodes (JObj event) /\
                recognized (event_kind event) = true.
Proof.
  intros H. apply main_speaks_resolved in H.
  destruct H as [pre [event [config [message [Hp [Hr Ht]]]]]].
  apply prelude_passes in Hp. destruct Hp as [Hin _].
  assert (Hrec : forall items, event = JObj items ->
                               recognized (event_kind items) = true).
  { intros items ->. destruct (recognized (event_kind items)) eqn:R; [reflexivity|].
    rewrite (resolve_unrecognized w items config message R Hr) in Ht.
    discriminate Ht. }
  destruct Hin as [[_ ->]|Hin].
  - specialize (Hrec [] eq_refl). discriminate Hrec.
  - destruct event; try discriminate Hr.
    exists items. split; [exact Hin | now apply Hrec].
Qed.

Lemma main_speaks_only_for_recognized_witness :
  exists event, stdin prompt_world = Decodes (JObj event) /\
                recognized (event_kind event) = true.
Proof.
  apply (main_speaks_only_for_recognized prompt_world).
  vm_compute. tauto.
Defined.

(** X17. The run speaks only when the configuration loaded (from the
    file, or the defaults after a diagnostic) and its [enabled] flag,
    true when absent, is true as a condition. *)
Theorem main_speaks_only_when_enabled (w : world) :
  speaks (fst (main w)) ->
  exists config enabled,
    snd (load_config w) = Ok config /\
    get config (py "enabled") (JBool true) = Ok enabled /\
    truthy enabled = true.
Proof.
  intros H. apply main_speaks_resolved in H.
  destruct H as [pre [event [config [message [Hp _]]]]].
  apply prelude_passes in Hp. destruct Hp as [_ [Hc [enabled [He Ht]]]].
  now exists config, enabled.
Qed.

Lemma main_speaks_only_when_enabled_witness :
  exists config enabled,
    snd (load_config prompt_world) = Ok config /\
    get config (py "enabled") (JBool true) = Ok enabled /\
    truthy enabled = true.
Proof.
  apply (main_speaks_only_when_enabled prompt_world).
  vm_compute. tauto.
Defined.

Lemma load_config_logs_nothing (w : world) (logged : json) :
  ~ In (DebugWrite logged) (fst (load_config w)).
Proof.
  intros H. apply load_config_prints_only in H.
  destruct H as [prefix [e H]]. discriminate H.
Qed.

Lemma speak_logs_nothing (w : world) (message config logged : json) :
  ~ In (DebugWrite logged) (fst (speak w message config)).
Proof.
  destruct (tmp_file w) as [path|e] eqn:Htmp.
  - rewrite (speak_with_tmp w message config path Htmp). intros H.
    apply in_io_bind in H. destruct H as [[H|[]]|[u [_ H]]]; [discriminate H|].
    rewrite fst_io_try_finally, unlink_cleanup in H.
    apply in_app_or in H. destruct H as [H|[H|[]]]; [|discriminate H].
    unfold synthesize_and_play in H.
    apply in_io_bind in H. destruct H as [[]|[voice [_ H]]].
    apply in_io_bind in H. destruct H as [[]|[rate [_ H]]].
    apply in_io_bind in H. destruct H as [[]|[volume [_ H]]].
    apply in_io_bind in H. destruct H as [[]|[pitch [_ H]]].
    apply in_io_bind in H. destruct H as [[H|[]]|[u' [_ H]]]; [discriminate H|].
    apply in_io_bind in H. destruct H as [[]|[u'' [_ H]]].
    rewrite play_mp3_trace in H. cbn [fst] in H.
    apply in_map_iff in H. destruct H as [command [H _]]. discriminate H.
  - unfold speak, _generate_and_play. rewrite Htmp. cbn.
    intros [H|[]]. discriminate H.
Qed.

(** X18. The run appends to the debug log only when the configuration
    loaded, its [debug] flag, false when absent, is true as a condition,
    and the write succeeded; what it logs is the event as it was decoded
    from standard input, the empty mapping for blank input. *)
Theorem main_logs_decoded_event_when_debug (w : world) (logged : json) :
  In (DebugWrite logged) (fst (main w)) ->
  (stdin w = Blank /\ logged = JObj [] \/ stdin w = Decodes logged) /\
  debug_log w = Ok tt /\
  exists config debug,
    snd (load_config w) = Ok config /\
    get config (py "debug") (JBool false) = Ok debug /\
    truthy debug = true.
Proof.
  unfold main. intros H.
  apply in_io_bind in H. destruct H as [[]|[event [He H]]].
  apply in_io_bind in H. destruct H as [H|[config [Hc H]]].
  { now elim (load_config_logs_nothing w logged). }
  apply in_io_bind in H. destruct H as [[]|[debug [Hd H]]].
  cbn [io_lift snd] in He, Hd.
  apply in_io_bind in H. destruct H as [H|[u [_ H]]].
  - destruct (truthy debug) eqn:T; [|destruct H].
    unfold _debug_log in H. destruct (debug_log w) as [[]|e] eqn:Hlog.
    + cbn in H. destruct H as [H|[]]. injection H as <-.
      split; [|split; [reflexivity|now exists config, debug]].
      destruct (stdin w) as [| |v]; [left|discriminate|right].
      * injection He as <-. now split.
      * now injection He as <-.
    + destruct e; cbn in H; destruct H.
  - apply in_io_bind in H. destruct H as [[]|[enabled [_ H]]].
    destruct (negb (truthy enabled)); [destruct H|].
    apply in_io_bind in H. destruct H as [[]|[message [_ H]]].
    destruct (truthy message); [|destruct H].
    now elim (speak_logs_nothing w message config logged).
Qed.

Lemma main_logs_decoded_event_when_debug_witness :
  (stdin debug_world = Blank /\ prompt_event = JObj [] \/
   stdin debug_world = Decodes prompt_event) /\
  debug_log debug_world = Ok tt /\
  exists config debug,
    snd (load_config debug_world) = Ok config /\
    get config (py "debug") (JBool false) = Ok debug /\
    truthy debug = true.
Proof.
  apply (main_logs_decoded_event_when_debug debug_world prompt_event).
  left. reflexivity.
Defined.

(** ** The summary is one line *)

Lemma linebreak_isspace (c : Py.char) :
  Py.islinebreak c = true -> Py.isspace c = true.
Proof.
  unfold Py.islinebreak, Py.isspace.
  rewrite !orb_true_iff, !andb_true_iff, !N.leb_le, !N.eqb_eq. lia.
Qed.

Lemma one_line_prefix (p s : str) : Py.prefix_of p s -> one_line s -> one_line p.
Proof. intros [t ->] H. now apply Forall_app in H. Qed.

Lemma one_line_strip (s : str) : one_line s -> one_line (Py.strip s).
Proof.
  intros H. unfold Py.strip.
  apply (one_line_prefix _ (Py.lstrip s)); [apply rstrip_prefix|].
  destruct (lstrip_suffix s) as [ws [Hs _]]. rewrite Hs in H.
  now apply Forall_app in H.
Qed.

(** The lines [splitlines] returns hold no line boundary. *)
Lemma splitlines_from_one_line (n : nat) (s cur : str) :
  (List.length s <= n)%nat -> one_line cur ->
  Forall one_line (Py.splitlines_from cur s).
Proof.
  revert s cur. induction n as [|n IH]; intros s cur Hlen Hcur.
  - destruct s; [|simpl in Hlen; lia]. simpl.
    destruct cur; constructor; [|constructor]. now apply Forall_rev.
  - destruct s as [|c s]; simpl.
    + destruct cur; constructor; [|constructor]. now apply Forall_rev.
    + simpl in Hlen. destruct (Py.islinebreak c) eqn:B.
      * constructor; [now apply Forall_rev|].
        destruct s as [|d s]; [constructor|].
        simpl in Hlen.
        destruct ((c =? 13)%N && (d =? 10)%N);
          apply IH; simpl; try lia; constructor.
      * apply IH; [lia|]. now constructor.
Qed.

(** With a line under way, the first line returned starts with it. *)
Lemma splitlines_from_first (s cur : str) :
  cur <> [] ->
  exists rest more, Py.splitlines_from cur s = (rev cur ++ rest) :: more.
Proof.
  revert cur. induction s as [|c s IH]; intros cur Hcur; simpl.
  - destruct cur; [congruence|]. exists [], []. now rewrite app_nil_r.
  - destruct (Py.islinebreak c).
    + eexists [], _. now rewrite app_nil_r.
    + destruct (IH (c :: cur)) as [rest [more H]]; [discriminate|].
      exists (c :: rest), more. rewrite H. simpl. now rewrite <- app_assoc.
Qed.

Lemma lstrip_keeps_last (a : str) (c : Py.char) :
  Py.isspace c = false -> Py.lstrip (a ++ [c]) <> [].
Proof.
  intros Hc. induction a as [|d a IH]; simpl.
  - now rewrite Hc.
  - destruct (Py.isspace d); [exact IH | discriminate].
Qed.

Lemma strip_keeps_nonspace (c : Py.char) (x : str) :
  Py.isspace c = false -> Py.strip (c :: x) <> [].
Proof.
  intros Hc. unfold Py.strip. simpl Py.lstrip. rewrite Hc.
  unfold Py.rstrip. simpl rev. intros H.
  apply (f_equal (@rev _)) in H. rewrite rev_involutive in H. simpl in H.
  now apply (lstrip_keeps_last (rev x) c Hc).
Qed.

(** What [strip] returns does not start with whitespace. *)
Lemma strip_head (s : str) (c : Py.char) (rest : str) :
  Py.strip s = c :: rest -> Py.isspace c = false.
Proof.
  unfold Py.strip. intros H.
  pose proof (lstrip_head s) as Hh.
  destruct (rstrip_spec (Py.lstrip s)) as [ws [Hs _]].
  rewrite H in Hs. rewrite Hs in Hh. exact Hh.
Qed.

(** The non-empty lines of a stripped text that is not empty. *)
Lemma stripped_has_line (s : str) :
  Py.strip s <> [] ->
  filter (fun l => truthy (JStr (Py.strip l))) (Py.splitlines (Py.strip s)) <> [].
Proof.
  destruct (Py.strip s) as [|c x] eqn:E; [congruence|]. intros _.
  pose proof (strip_head s c x E) as Hc.
  unfold Py.splitlines. cbn [Py.splitlines_from].
  destruct (Py.islinebreak c) eqn:B.
  { apply linebreak_isspace in B. congruence. }
  destruct (splitlines_from_first x [c]) as [rest [more ->]]; [discriminate|].
  cbn [filter rev app].
  destruct (Py.strip (c :: rest)) eqn:S.
  - now elim (strip_keeps_nonspace c rest Hc).
  - discriminate.
Qed.

Lemma last_in {A : Type} (l : list A) (d : A) : l <> [] -> In (last l d) l.
Proof.
  induction l as [|x l IH]; [congruence|]. intros _.
  destruct l as [|y l]; [now left|]. right. apply IH. discriminate.
Qed.

Lemma last_line_snippet_one_line (last_text : json) (s : str) :
  last_line_snippet last_text = Ok s -> one_line s.
Proof.
  unfold last_line_snippet. destruct (negb (truthy last_text)).
  { intros H. injection H as <-. constructor. }
  destruct last_text; try discriminate. cbn [strip bind].
  set (kept := filter (fun l => truthy (JStr (Py.strip l)))
                 (Py.splitlines (Py.strip s0))).
  set (lines := map Py.strip kept).
  assert (Hlines : Forall one_line lines).
  { unfold lines, kept. apply Forall_map. apply Forall_forall. intros l Hl.
    apply filter_In in Hl. destruct Hl as [Hl _]. apply one_line_strip.
    pose proof (splitlines_from_one_line (List.length (Py.strip s0))
                  (Py.strip s0) [] (le_n _) (Forall_nil _)) as Hall.
    rewrite Forall_forall in Hall. now apply Hall. }
  assert (Hsnip : one_line (match lines with
                            | [] => Py.strip s0
                            | _ :: _ => last lines []
                            end)).
  { destruct lines as [|l lines'] eqn:El.
    - apply map_eq_nil in El.
      destruct (list_eq_dec N.eq_dec (Py.strip s0) []) as [Hnil|Hne].
      + rewrite Hnil. constructor.
      + exfalso. exact (stripped_has_line s0 Hne El).
    - rewrite Forall_forall in Hlines. apply Hlines.
      apply last_in. discriminate. }
  match goal with |- context [if ?c then _ else _] => destruct c end;
    intros H; injection H as <-;
    (eapply one_line_prefix; [apply slice_to_prefix | exact Hsnip]).
Qed.

(** X19. A summary that [_extract_summary] returns is one line: it holds
    no line boundary, whatever the assistant's text holds. *)
Theorem extract_summary_one_line (w : world) (path : json) (s : str) :
  _extract_summary w path = Ok s -> one_line s.
Proof.
  unfold _extract_summary, try_except.
  match goal with |- context [match ?r with Ok _ => _ | Raise _ => _ end] =>
    destruct r as [s'|e] eqn:E
  end.
  - intros H. injection H as <-.
    destruct (transcript w path) as [lines|e]; cbn [bind] in E; [|discriminate].
    destruct (for_each scan_line (JStr []) lines) as [last_text|e];
      cbn [bind] in E; [|discriminate].
    now apply (last_line_snippet_one_line last_text).
  - destruct (caught _ e); intros H; [|discriminate].
    injection H as <-. constructor.
Qed.

Lemma extract_summary_one_line_witness : one_line (py "Line two?").
Proof.
  apply (extract_summary_one_line two_line_world (JStr (py "t.jsonl"))).
  reflexivity.
Defined.

(** ** What is synthesized *)

(** The prelude prints diagnostics and writes the debug log, nothing else. *)
Lemma prelude_actions (w : world) (a : action) :
  In a (fst (prelude w)) ->
  (exists prefix e, a = Stderr prefix e) \/ exists event, a = DebugWrite event.
Proof.
  unfold prelude. intros H.
  apply in_io_bind in H. destruct H as [[]|[event [_ H]]].
  apply in_io_bind in H. destruct H as [H|[config [_ H]]].
  { left. now apply (load_config_prints_only w). }
  apply in_io_bind in H. destruct H as [[]|[debug [_ H]]].
  apply in_io_bind in H. destruct H as [H|[u [_ H]]].
  { destruct (truthy debug); [|destruct H]. unfold _debug_log in H.
    destruct (debug_log w) as [[]|e].
    - cbn in H. destruct H as [<-|[]]. right. eauto.
    - destruct e; cbn in H; destruct H. }
  apply in_io_bind in H. destruct H as [[]|[enabled [_ H]]].
  destruct (negb (truthy enabled)); destruct H.
Qed.

Lemma speak_synthesizes (w : world) (message config said voice rate volume pitch : json)
    (path : str) :
  In (Synthesize said voice rate volume pitch path) (fst (speak w message config)) ->
  said = message /\ tmp_file w = Ok path /\
  get config (py "voice") (JStr (py "en-US-GuyNeural")) = Ok voice /\
  get config (py "rate") (JStr (py "+0%")) = Ok rate /\
  get config (py "volume") (JStr (py "+0%")) = Ok volume /\
  get config (py "pitch") (JStr (py "+0Hz")) = Ok pitch.
Proof.
  destruct (tmp_file w) as [tmp_path|e] eqn:Htmp.
  - rewrite (speak_with_tmp w message config tmp_path Htmp). intros H.
    apply in_io_bind in H. destruct H as [[H|[]]|[u [_ H]]]; [discriminate H|].
    rewrite fst_io_try_finally, unlink_cleanup in H.
    apply in_app_or in H. destruct H as [H|[H|[]]]; [|discriminate H].
    unfold synthesize_and_play in H.
    apply in_io_bind in H. destruct H as [[]|[voice' [Hv H]]].
    apply in_io_bind in H. destruct H as [[]|[rate' [Hr H]]].
    apply in_io_bind in H. destruct H as [[]|[volume' [Hvo H]]].
    apply in_io_bind in H. destruct H as [[]|[pitch' [Hp H]]].
    cbn [io_lift snd] in Hv, Hr, Hvo, Hp.
    apply in_io_bind in H. destruct H as [[H|[]]|[u' [_ H]]].
    + injection H as <- <- <- <- <- <-. repeat split; assumption.
    + apply in_io_bind in H. destruct H as [[]|[u'' [_ H]]].
      rewrite play_mp3_trace in H. cbn [fst] in H.
      apply in_map_iff in H. destruct H as [command [H _]]. discriminate H.
  - unfold speak, _generate_and_play. rewrite Htmp. cbn.
    intros [H|[]]. discriminate H.
Qed.

(** X20. What the run hands to the synthesizer is the message
    [resolve_message] returned for the event and the configuration of the
    prelude, with the configuration's [voice], [rate], [volume] and
    [pitch] (the built-in values for those absent), to be saved in the
    temporary file. *)
Theorem main_synthesizes_resolved_message
    (w : world) (said voice rate volume pitch : json) (path : str) :
  In (Synthesize said voice rate volume pitch path) (fst (main w)) ->
  exists pre event config,
    prelude w = (pre, Ok (Some (event, config))) /\
    resolve_message w event config = Ok said /\
    tmp_file w = Ok path /\
    get config (py "voice") (JStr (py "en-US-GuyNeural")) = Ok voice /\
    get config (py "rate") (JStr (py "+0%")) = Ok rate /\
    get config (py "volume") (JStr (py "+0%")) = Ok volume /\
    get config (py "pitch") (JStr (py "+0Hz")) = Ok pitch.
Proof.
  rewrite main_prelude. intros H. apply in_io_bind in H.
  destruct H as [H|[[[event config]|] [Hp H]]].
  - apply prelude_actions in H.
    destruct H as [[prefix [e H]]|[ev H]]; discriminate H.
  - apply in_io_bind in H. cbn [io_lift fst snd] in H.
    destruct H as [[]|[message [Hr H]]].
    destruct (truthy message); [|destruct H].
    apply speak_synthesizes in H. destruct H as [-> H].
    exists (fst (prelude w)), event, config.
    split; [|now split]. destruct (prelude w) as [pre r]. cbn in *. now subst.
  - destruct H.
Qed.

Lemma main_synthesizes_resolved_message_witness :
  exists pre event config,
    prelude prompt_world = (pre, Ok (Some (event, config))) /\
    resolve_message prompt_world event config = Ok (JStr (py "On it.")) /\
    tmp_file prompt_world = Ok (py "tmp.mp3") /\
    get config (py "voice") (JStr (py "en-US-GuyNeural"))
    = Ok (JStr (py "en-US-GuyNeural")) /\
    get config (py "rate") (JStr (py "+0%")) = Ok (JStr (py "+0%")) /\
    get config (py "volume") (JStr (py "+0%")) = Ok (JStr (py "+0%")) /\
    get config (py "pitch") (JStr (py "+0Hz")) = Ok (JStr (py "+0Hz")).
Proof.
  apply (main_synthesizes_resolved_message prompt_world).
  vm_compute. tauto.
Defined.

(** * The claims on the entry point and on rendering *)

(** ** The outermost handler *)

(** C3, as stated, fails: an interrupt during the synthesis is no
    [Exception]; the handler does not catch it, prints nothing, and the
    process ends on it. *)
Lemma entry_point_dies_on_interrupt :
  entry_point (with_synthesis prompt_world (Raise KeyboardInterrupt))
  = ([ Stderr (py "Config error, using defaults: ") FileNotFoundError;
       CreateTemp;
       Synthesize (JStr (py "On it.")) (JStr (py "en-US-GuyNeural"))
                  (JStr (py "+0%")) (JStr (py "+0%")) (JStr (py "+0Hz"))
                  (py "tmp.mp3");
       Unlink (py "tmp.mp3") ],
     Dies KeyboardInterrupt).
Proof. reflexivity. Qed.

(** Nor does the exit code stay 0 when the handler cannot print. *)
Example entry_point_dies_on_print_error :
  entry_point (with_stderr_error (with_stdin quiet Malformed) OSError)
  = ([], Dies OSError).
Proof. reflexivity. Qed.

Lemma play_mp3_raises_runtime_error (w : world) (path : str) (e : exc_class) :
  snd (play_mp3 w path) = Raise e -> e = RuntimeError.
Proof.
  rewrite play_mp3_trace. cbn [snd].
  destruct (forallb _ _); [discriminate|]. intros H. now injection H.
Qed.

(** C3, amended. When [main] returns, the exit code is 0. When it raises
    an exception that is an instance of [Exception] (the
    [JSONDecodeError] of malformed standard input, the [RuntimeError] of
    a playback error, a synthesis error of such a class, any other) and
    the line can be written to standard error, the exception is caught,
    the line that carries it is printed after everything else and the
    exit code is 0. An exception that is no instance of [Exception] is
    not caught, and an error of the handler's own print ends the process
    on that error. *)
Theorem entry_point_catches_exceptions (w : world) :
  (forall u, snd (main w) = Ok u -> entry_point w = (fst (main w), Exit 0)) /\
  (forall e,
     snd (main w) = Raise e -> issubclass e Exception = true ->
     stderr_write w (py "claudevoice error: ") e = Ok tt ->
     entry_point w
     = (fst (main w) ++ [Stderr (py "claudevoice error: ") e], Exit 0)) /\
  (forall e e',
     snd (main w) = Raise e -> issubclass e Exception = true ->
     stderr_write w (py "claudevoice error: ") e = Raise e' ->
     entry_point w = (fst (main w), Dies e')) /\
  (forall e,
     snd (main w) = Raise e -> issubclass e Exception = false ->
     entry_point w = (fst (main w), Dies e)) /\
  (stdin w = Malformed ->
   snd (main w) = Raise JSONDecodeError /\
   issubclass JSONDecodeError Exception = true) /\
  (forall path e,
     snd (play_mp3 w path) = Raise e -> issubclass e Exception = true).
Proof.
  assert (Hbad : stdin w = Malformed -> snd (main w) = Raise JSONDecodeError).
  { intros H. unfold main. rewrite H. reflexivity. }
  unfold entry_point, print_stderr.
  destruct (main w) as [tr r]. cbn [fst snd] in *.
  split; [|split; [|split; [|split; [|split]]]].
  - intros u ->. reflexivity.
  - intros e -> He Hp. rewrite He, Hp. reflexivity.
  - intros e e' -> He Hp. rewrite He, Hp. cbn. now rewrite app_nil_r.
  - intros e -> He. now rewrite He.
  - intros Hin. split; [now apply Hbad | reflexivity].
  - intros path e Hp. apply play_mp3_raises_runtime_error in Hp. now subst.
Qed.

Lemma entry_point_catches_exceptions_witness :
  entry_point (with_synthesis prompt_world (Raise OtherError))
  = (fst (main (with_synthesis prompt_world (Raise OtherError)))
     ++ [Stderr (py "claudevoice error: ") OtherError], Exit 0).
Proof.
  destruct (entry_point_catches_exceptions
              (with_synthesis prompt_world (Raise OtherError))) as [_ [H _]].
  apply (H OtherError); reflexivity.
Defined.

Example entry_point_bad_stdin :
  entry_point (with_stdin quiet Malformed)
  = ([Stderr (py "claudevoice error: ") JSONDecodeError], Exit 0).
Proof. reflexivity. Qed.

Example entry_point_synthesis_error :
  entry_point (with_synthesis prompt_world (Raise OtherError))
  = ([ Stderr (py "Config error, using defaults: ") FileNotFoundError;
       CreateTemp;
       Synthesize (JStr (py "On it.")) (JStr (py "en-US-GuyNeural"))
                  (JStr (py "+0%")) (JStr (py "+0%")) (JStr (py "+0Hz"))
                  (py "tmp.mp3");
       Unlink (py "tmp.mp3");
       Stderr (py "claudevoice error: ") OtherError ], Exit 0).
Proof. reflexivity. Qed.

Example entry_point_playback_error :
  entry_point (with_playback_error prompt_world 263)
  = ([ Stderr (py "Config error, using defaults: ") FileNotFoundError;
       CreateTemp;
       Synthesize (JStr (py "On it.")) (JStr (py "en-US-GuyNeural"))
                  (JStr (py "+0%")) (JStr (py "+0%")) (JStr (py "+0Hz"))
                  (py "tmp.mp3");
       Mci (py "Close All");
       Mci (py "Open " ++ quote ++ py "tmp.mp3" ++ quote
            ++ py " Type MPEGVideo Alias voice_notif");
       Unlink (py "tmp.mp3");
       Stderr (py "claudevoice error: ") RuntimeError ], Exit 0).
Proof. reflexivity. Qed.

(** ** The collaborators *)

Lemma main_after_prelude (w : world) (pre : list action)
    (event config message : json) :
  prelude w = (pre, Ok (Some (event, config))) ->
  resolve_message w event config = Ok message ->
  main w
  = (pre ++ fst (if truthy message then speak w message config else io_ret tt),
     snd (if truthy message then speak w message config else io_ret tt)).
Proof.
  intros Hp Hr. rewrite main_prelude, Hp. cbn [io_bind].
  rewrite Hr. cbn [io_lift io_bind].
  destruct (truthy message).
  - destruct (speak w message config) as [tr r]. reflexivity.
  - reflexivity.
Qed.

(** An action of the run is one of the prelude or one of [speak], called
    on the message resolved. *)
Lemma main_action (w : world) (a : action) :
  In a (fst (main w)) ->
  In a (fst (prelude w)) \/
  exists config message,
    resolved_for_speech w config message /\
    In a (fst (speak w message config)).
Proof.
  rewrite main_prelude. intros H. apply in_io_bind in H.
  destruct H as [H|[[[event config]|] [Hp H]]].
  - now left.
  - apply in_io_bind in H. cbn [io_lift fst snd] in H.
    destruct H as [[]|[message [Hr H]]].
    destruct (truthy message) eqn:T; [|destruct H].
    right. exists config, message. split; [|exact H].
    exists (fst (prelude w)), event. split; [|now split].
    destruct (prelude w) as [pre r]. cbn in *. now subst.
  - destruct H.
Qed.

Lemma try_block_trace (w : world) (message config voice rate volume pitch : json)
    (path : str) :
  voice_settings config voice rate volume pitch ->
  fst (synthesize_and_play w message config path)
  = Synthesize message voice rate volume pitch path
    :: match synthesize w message voice rate volume pitch path with
       | Ok _ => map Mci (sent_until_error (mciSendString w) (play_commands path))
       | Raise _ => []
       end.
Proof.
  intros [Hv [Hr [Hvo Hp]]]. unfold synthesize_and_play.
  rewrite Hv, Hr, Hvo, Hp. cbn [io_lift io_bind io_act app].
  destruct (synthesize w message voice rate volume pitch path) as [[]|e].
  - rewrite play_mp3_trace. reflexivity.
  - reflexivity.
Qed.

Lemma speak_trace (w : world) (message config voice rate volume pitch : json)
    (path : str) :
  tmp_file w = Ok path ->
  voice_settings config voice rate volume pitch ->
  fst (speak w message config)
  = CreateTemp
    :: Synthesize message voice rate volume pitch path
    :: match synthesize w message voice rate volume pitch path with
       | Ok _ => map Mci (sent_until_error (mciSendString w) (play_commands path))
       | Raise _ => []
       end
    ++ [Unlink path].
Proof.
  intros Htmp Hset. rewrite (speak_with_tmp w message config path Htmp).
  rewrite fst_io_bind. cbn [io_act fst snd app].
  rewrite fst_io_try_finally, unlink_cleanup.
  now rewrite (try_block_trace w message config voice rate volume pitch path Hset).
Qed.

(** C9, as stated, fails in both directions. Under a prompt template
    that is the number 5, [resolve_message] returns 5, no string, and the
    run calls the synthesizer on it. Where the import of edge_tts fails,
    [resolve_message] returns a string that is not empty, and neither the
    synthesizer nor the player is called. *)
Lemma main_speech_is_not_by_string :
  resolve_message number_prompt_world prompt_event
    (JObj [(py "messages", JObj [(py "prompt_submit", JInt 5)])])
  = Ok (JInt 5) /\
  main number_prompt_world
  = ([ CreateTemp;
       Synthesize (JInt 5) (JStr (py "en-US-GuyNeural"))
                  (JStr (py "+0%")) (JStr (py "+0%")) (JStr (py "+0Hz"))
                  (py "tmp.mp3");
       Unlink (py "tmp.mp3") ], Raise TypeError) /\
  resolve_message (with_tmp_error prompt_world ModuleNotFoundError)
    prompt_event DEFAULT_CONFIG
  = Ok (JStr (py "On it.")) /\
  main (with_tmp_error prompt_world ModuleNotFoundError)
  = ([ Stderr (py "Config error, using defaults: ") FileNotFoundError;
       CreateTemp ], Raise ModuleNotFoundError).
Proof. repeat split. Qed.

(** C9, amended. The run calls the synthesizer exactly when
    [resolve_message] returned a value that is true as a condition (of
    the values its signature declares, a string or [None], these are the
    non-empty strings) and the temporary file could be created; the
    synthesizer gets that value, the configuration's settings and the
    file. It sends the player's commands exactly when, besides, the
    synthesis returned: those of [play_mp3] up to the first that fails.
    A resolution to the empty string leaves the run as one to [None]
    does: nothing is synthesized or played, nothing is done after the
    prelude. *)
Theorem main_invokes_collaborators (w : world) :
  (forall said voice rate volume pitch path,
     In (Synthesize said voice rate volume pitch path) (fst (main w)) <->
     exists config,
       resolved_for_speech w config said /\
       tmp_file w = Ok path /\
       voice_settings config voice rate volume pitch)
  /\
  (forall command,
     In (Mci command) (fst (main w)) <->
     exists config said path voice rate volume pitch,
       resolved_for_speech w config said /\
       tmp_file w = Ok path /\
       voice_settings config voice rate volume pitch /\
       synthesize w said voice rate volume pitch path = Ok tt /\
       In command (sent_until_error (mciSendString w) (play_commands path)))
  /\ (forall s, truthy (JStr s) = true <-> s <> [])
  /\ truthy JNull = false
  /\ (forall pre event config,
        prelude w = (pre, Ok (Some (event, config))) ->
        resolve_message w event config = Ok (JStr []) \/
        resolve_message w event config = Ok JNull ->
        main w = (pre, Ok tt)).
Proof.
  split; [|split; [|split; [|split]]].
  - intros said voice rate volume pitch path. split.
    + intros H. apply main_action in H. destruct H as [H|[config [message [Hres H]]]].
      * apply prelude_actions in H.
        destruct H as [[prefix [e H]]|[ev H]]; discriminate H.
      * apply speak_synthesizes in H.
        destruct H as [-> [Htmp Hset]]. exists config. now repeat split.
    + intros [config [[pre [event [Hp [Hr Ht]]]] [Htmp Hset]]].
      rewrite (main_after_prelude w pre event config said Hp Hr), Ht.
      cbn [fst].
      rewrite (speak_trace w said config voice rate volume pitch path Htmp Hset).
      apply in_or_app. right. right. now left.
  - intros command. split.
    + intros H. apply main_action in H. destruct H as [H|[config [message [Hres H]]]].
      * apply prelude_actions in H.
        destruct H as [[prefix [e H]]|[ev H]]; discriminate H.
      * apply speak_mci in H.
        destruct H as [path [voice [rate [volume [pitch
                         [Htmp [Hv [Hr [Hvo [Hpi [Hs Hin]]]]]]]]]]].
        exists config, message, path, voice, rate, volume, pitch.
        now repeat split.
    + intros [config [said [path [voice [rate [volume [pitch
               [[pre [event [Hp [Hr Ht]]]] [Htmp [Hset [Hs Hin]]]]]]]]]]].
      rewrite (main_after_prelude w pre event config said Hp Hr), Ht.
      cbn [fst].
      rewrite (speak_trace w said config voice rate volume pitch path Htmp Hset).
      rewrite Hs. apply in_or_app. right. right. right.
      apply in_or_app. left. now apply in_map.
  - intros s. destruct s; simpl; split; congruence.
  - reflexivity.
  - intros pre event config Hp [Hr|Hr];
      rewrite (main_after_prelude w pre event config _ Hp Hr); cbn;
      now rewrite app_nil_r.
Qed.

Lemma main_invokes_collaborators_witness :
  In (Synthesize (JStr (py "On it.")) (JStr (py "en-US-GuyNeural"))
                 (JStr (py "+0%")) (JStr (py "+0%")) (JStr (py "+0Hz"))
                 (py "tmp.mp3"))
     (fst (main prompt_world))
  /\ In (Mci (py "Play voice_notif Wait")) (fst (main prompt_world))
  /\ main bare_stop_world = ([], Ok tt).
Proof.
  assert (Hres : resolved_for_speech prompt_world DEFAULT_CONFIG (JStr (py "On it."))).
  { exists [Stderr (py "Config error, using defaults: ") FileNotFoundError],
           prompt_event.
    repeat split. }
  split; [|split].
  - destruct (main_invokes_collaborators prompt_world) as [H _].
    apply H. exists DEFAULT_CONFIG. split; [exact Hres|]. repeat split.
  - destruct (main_invokes_collaborators prompt_world) as [_ [H _]].
    apply H.
    exists DEFAULT_CONFIG, (JStr (py "On it.")), (py "tmp.mp3"),
           (JStr (py "en-US-GuyNeural")), (JStr (py "+0%")), (JStr (py "+0%")),
           (JStr (py "+0Hz")).
    split; [exact Hres|]. repeat split. cbn. tauto.
  - destruct (main_invokes_collaborators bare_stop_world) as [_ [_ [_ [_ H]]]].
    apply (H [] (stop_event []) bare_stop_config); [reflexivity|].
    left. reflexivity.
Defined.

(** ** Rendering in the resolver *)

Lemma rendering_replace (key template value : str) :
  brace_free key ->
  rendering (placeholder key) template value
            (Py.replace template (placeholder key) value).
Proof.
  intros Hkey. pose proof (brace_free_tail key Hkey) as Hfresh.
  assert (Hjoin : forall t segs,
            segments_of t (placeholder key) segs ->
            Py.replace t (placeholder key) value = Py.join value segs).
  { intros t segs [-> Hf]. rewrite placeholder_cons in *.
    now apply replace_join. }
  split.
  - intros segs Hsegs. now apply Hjoin.
  - intros a name b before after Hname Hne -> Ha Hb.
    rewrite <- (Hjoin a before Ha), <- (Hjoin b after Hb).
    rewrite !placeholder_cons in *. unfold Py.replace.
    apply replace_scan_around.
    + assumption.
    + now apply brace_free_tail.
    + intros b' t H. apply Hne. f_equal.
      rewrite <- !placeholder_cons in H.
      now rewrite (placeholder_prefix name key b' t).
Qed.

(** What [resolve_message] returns for a Stop event that is not
    [stop_hook_active]. *)
Lemma resolve_stop_rendered (w : world) (event config : list (str * json))
    (template value : str) :
  eq_str (event_kind event) (py "Stop") = true ->
  truthy (stop_hook_active event) = false ->
  stop_template config template ->
  stop_summary w event value ->
  resolve_message w (JObj event) (JObj config)
  = Ok (JStr (_truncate
                (match value with
                 | [] => Py.strip (Py.replace template (py "{summary}") value)
                 | _ :: _ => Py.replace template (py "{summary}") value
                 end) MAX_MESSAGE_LENGTH)).
Proof.
  intros Hk Ha [messages [Hm Ht]] Hsum. unfold resolve_message.
  change (get (JObj event) (py "hook_event_name") (JStr []))
    with (Ok (event_kind event)).
  change (get (JObj event) (py "stop_hook_active") (JBool false))
    with (Ok (stop_hook_active event)).
  change (get (JObj event) (py "transcript_summary") (JStr []))
    with (Ok (transcript_summary event)).
  change (get (JObj event) (py "transcript_path") (JStr []))
    with (Ok (transcript_path event)).
  cbn [bind]. rewrite Hm. cbn [bind]. rewrite (kind_stop _ Hk), Hk, Ha, Ht.
  cbn [bind].
  destruct Hsum as [[Hs Hne]|[[Hs [Hp He]]|[Hs [Hp ->]]]].
  - rewrite Hs. destruct value as [|c value]; [congruence|].
    cbn [truthy negb bind replace]. reflexivity.
  - rewrite Hs, Hp, He. cbn [negb bind].
    destruct value as [|c value]; cbn [truthy negb bind replace]; reflexivity.
  - rewrite Hs, Hp. cbn [negb bind]. rewrite Hs. cbn [negb replace bind].
    reflexivity.
Qed.

(** What [resolve_message] returns for a Notification event. *)
Lemma resolve_notification_rendered (w : world)
    (event config : list (str * json)) (template raw : str) :
  eq_str (event_kind event) (py "Notification") = true ->
  notification_template w event config template ->
  event_message event = JStr raw ->
  resolve_message w (JObj event) (JObj config)
  = Ok (JStr (_truncate (Py.replace template (py "{message}") raw)
                        MAX_MESSAGE_LENGTH)).
Proof.
  intros Hk [messages [fallback [Hm [Hf Ht]]]] Hraw. unfold resolve_message.
  change (get (JObj event) (py "hook_event_name") (JStr []))
    with (Ok (event_kind event)).
  change (get (JObj event) (py "notification_type") (JStr []))
    with (Ok (notification_type event)).
  change (get (JObj event) (py "message") (JStr (py "Notification")))
    with (Ok (event_message event)).
  cbn [bind]. rewrite Hm. cbn [bind].
  destruct (kind_notification _ Hk) as [-> ->]. rewrite Hk, Hf. cbn [bind].
  rewrite Ht. cbn [bind]. rewrite Hraw. reflexivity.
Qed.

(** C6. For every template and every value, rendering replaces each
    occurrence of the recognized placeholder by the value, once, and
    leaves every placeholder of another name as it is; and
    [resolve_message] returns the template of the event so rendered,
    length-capped: the stop template with the event's summary for
    [{summary}] (stripped when the summary is empty), the notification
    template with the event's message for [{message}]. *)
Theorem render_recognized_once_others_untouched :
  (renders_once (py "{summary}") /\ renders_once (py "{message}"))
  /\
  (forall (w : world) (event config : list (str * json)) (template value : str),
     eq_str (event_kind event) (py "Stop") = true ->
     truthy (stop_hook_active event) = false ->
     stop_template config template ->
     stop_summary w event value ->
     exists out,
       rendering (py "{summary}") template value out /\
       resolve_message w (JObj event) (JObj config)
       = Ok (JStr (_truncate (match value with
                              | [] => Py.strip out
                              | _ :: _ => out
                              end) MAX_MESSAGE_LENGTH)))
  /\
  (forall (w : world) (event config : list (str * json)) (template raw : str),
     eq_str (event_kind event) (py "Notification") = true ->
     notification_template w event config template ->
     event_message event = JStr raw ->
     exists out,
       rendering (py "{message}") template raw out /\
       resolve_message w (JObj event) (JObj config)
       = Ok (JStr (_truncate out MAX_MESSAGE_LENGTH))).
Proof.
  split; [split|split].
  - exact (renders_placeholder (py "summary") brace_free_summary).
  - exact (renders_placeholder (py "message") brace_free_message).
  - intros w event config template value Hk Ha Ht Hs.
    exists (Py.replace template (py "{summary}") value). split.
    + exact (rendering_replace (py "summary") template value brace_free_summary).
    + rewrite (resolve_stop_rendered w event config template value Hk Ha Ht Hs).
      now destruct value.
  - intros w event config template raw Hk Ht Hr.
    exists (Py.replace template (py "{message}") raw). split.
    + exact (rendering_replace (py "message") template raw brace_free_message).
    + exact (resolve_notification_rendered w event config template raw Hk Ht Hr).
Qed.

Lemma render_recognized_once_others_untouched_witness :
  resolve_message quiet
    (stop_event [(py "transcript_summary", JStr (py "All done"))])
    (JObj [(py "messages",
            JObj [(py "stop", JStr (py "Done. {summary} {detail}"))])])
  = Ok (JStr (py "Done. All done {detail}"))
  /\
  resolve_message quiet
    (notification_event [(py "message", JStr (py "hi"))])
    (JObj [(py "messages",
            JObj [(py "notification_default", JStr (py "Ask {who}: {message}"))])])
  = Ok (JStr (py "Ask {who}: hi")).
Proof.
  destruct render_recognized_once_others_untouched as [_ [Hstop Hnotification]].
  split.
  - destruct (Hstop quiet
                [ (py "hook_event_name", JStr (py "Stop"));
                  (py "transcript_summary", JStr (py "All done")) ]
                [(py "messages",
                  JObj [(py "stop", JStr (py "Done. {summary} {detail}"))])]
                (py "Done. {summary} {detail}") (py "All done"))
      as [out [[Hsegs _] Hres]].
    + reflexivity.
    + reflexivity.
    + eexists. split; reflexivity.
    + left. split; [reflexivity | discriminate].
    + unfold stop_event. rewrite Hres.
      rewrite (Hsegs [py "Done. "; py " {detail}"]); [reflexivity|].
      split; [reflexivity|].
      repeat constructor; apply occursb_false; reflexivity.
  - destruct (Hnotification quiet
                [ (py "hook_event_name", JStr (py "Notification"));
                  (py "message", JStr (py "hi")) ]
                [(py "messages",
                  JObj [(py "notification_default",
                         JStr (py "Ask {who}: {message}"))])]
                (py "Ask {who}: {message}") (py "hi"))
      as [out [[_ Haround] Hres]].
    + reflexivity.
    + eexists. eexists. repeat split.
    + reflexivity.
    + unfold notification_event. rewrite Hres.
      rewrite (Haround (py "Ask ") (py "who") (py ": {message}")
                 [py "Ask "] [py ": "; []]).
      * reflexivity.
      * split; intros Hin; simpl in Hin; intuition discriminate.
      * discriminate.
      * reflexivity.
      * split; [reflexivity|].
        repeat constructor; apply occursb_false; reflexivity.
      * split; [reflexivity|].
        repeat constructor; apply occursb_false; reflexivity.
Defined.
